(** * The compression-job client of clp_package_utils/scripts/native/compress.py

    A shallow embedding of [main]: the job document it inserts, the polling
    loop that follows the job, and the handler that runs when the client is
    interrupted while it waits.

    Conventions of the model.
    - The job collection is a finite map from object ids to job documents.
      Everything outside the client (the worker, the clock of the polling
      loop, the terminal that delivers Ctrl-C) is an environment script: a
      list of [Tick]s, one consumed by every blocking call ([insert_one],
      [time.sleep], [find_one], [find_one_and_update]).  A tick says what
      other processes did to the collection before the call took effect and
      whether a [KeyboardInterrupt] was delivered during the call.
    - Statements complete normally, by [return], by raising, or stay blocked
      when the script is exhausted (a finite observation of a run that is
      still waiting).
    - Python floats are modelled by exact rationals; the arguments handed to
      the formatting helpers ([pretty_size], [round], [{:.2f}]) are recorded
      in the log events as numbers, the formatting itself is not modelled.
    - Strings are kept as the UTF-8 bytes of Python's [str].
    - [main] is modelled from line 78 on, where [parse_args] has handed
      over the namespace; what [argparse] does with the command line
      before that (usage errors, [-h]) is not part of the model.
    - Job documents are typed as the job handler writes them: integer size
      counters, a string status, a boolean error flag, and begin/end
      timestamps that are absent, millisecond integers or datetimes. *)

From Stdlib Require Import ZArith QArith String Ascii List Lia Bool.
From stdpp Require Import base gmap strings.
Import ListNotations.

Local Open Scope string_scope.
Local Open Scope Z_scope.

(** ** Job status *)

(** Modelled from the spec: [JobStatus] of [compression_job_handler.common]
    is imported by compress.py but is not among the sources.  The spec
    (sections 4.3 and 9) gives a closed enumeration of six states and a
    decode function that fails for every string outside them; compress.py
    itself writes the initial state as the string ["pending"] and catches
    [KeyError] around [from_str]. *)
Inductive JobStatus : Type :=
| PENDING | RUNNING | DONE | FAILED | CANCELLING | CANCELLED.

Definition JobStatus_eqb (a b : JobStatus) : bool :=
  match a, b with
  | PENDING, PENDING | RUNNING, RUNNING | DONE, DONE
  | FAILED, FAILED | CANCELLING, CANCELLING | CANCELLED, CANCELLED => true
  | _, _ => false
  end.

(** Modelled from the spec: [str(JobStatus.X)], the string stored in the
    [status] field of a job document. *)
Definition JobStatus_str (s : JobStatus) : string :=
  match s with
  | PENDING => "pending"
  | RUNNING => "running"
  | DONE => "done"
  | FAILED => "failed"
  | CANCELLING => "cancelling"
  | CANCELLED => "cancelled"
  end.

(** Modelled from the spec: [JobStatus.from_str]; [None] stands for the
    [KeyError] raised on a string that names none of the six states. *)
Definition from_str (label : string) : option JobStatus :=
  if String.eqb label "pending" then Some PENDING
  else if String.eqb label "running" then Some RUNNING
  else if String.eqb label "done" then Some DONE
  else if String.eqb label "failed" then Some FAILED
  else if String.eqb label "cancelling" then Some CANCELLING
  else if String.eqb label "cancelled" then Some CANCELLED
  else None.

(** ** Job documents *)

(** A timestamp field as the store returns it: a millisecond integer or a
    datetime (kept as microseconds since the epoch). *)
Inductive Timestamp : Type :=
| Millis (ms : Z)
| Datetime (us : Z).

(** The value of [end_timestamp - begin_timestamp]: an [int] or a
    [timedelta] (kept as microseconds). *)
Inductive Delta : Type :=
| IntDelta (ms : Z)
| Timedelta (us : Z).

Record InputConfig : Type := {
  paths : list string;
  path_prefix_to_remove : option string
}.

Record JobDoc : Type := {
  input_type : string;
  input_config : InputConfig;
  status : string;
  submission_timestamp : Z;
  logs_uncompressed_size : Z;
  logs_compressed_size : Z;
  errors : bool;
  output_config : gmap string Z;
  begin_timestamp : option Timestamp;
  end_timestamp : option Timestamp
}.

Definition with_status (s : string) (d : JobDoc) : JobDoc :=
  {| input_type := input_type d;
     input_config := input_config d;
     status := s;
     submission_timestamp := submission_timestamp d;
     logs_uncompressed_size := logs_uncompressed_size d;
     logs_compressed_size := logs_compressed_size d;
     errors := errors d;
     output_config := output_config d;
     begin_timestamp := begin_timestamp d;
     end_timestamp := end_timestamp d |}.

(** ** Exceptions, completions, events *)

Inductive Exception : Type :=
| KeyboardInterrupt
| KeyError (key : string)
| ZeroDivisionError
| TypeError
| AttributeError (name : string)
| DuplicateKeyError
| SystemExit (code : Z).

Inductive Completion (A : Type) : Type :=
| Normal (a : A)
| Returned (code : Z)
| Raised (e : Exception)
| Blocked.

Arguments Normal {A} a.
Arguments Returned {A} code.
Arguments Raised {A} e.
Arguments Blocked {A}.

Inductive Level : Type := INFO | ERROR.

(** One constructor per logging call of [main]; the arguments are the
    values interpolated into the message. *)
Inductive LogMsg : Type :=
| ValidationFailed
| Submitted (id : N)
| WaitingForUpdates
| JobDisappeared
| Progress (uncompressed compressed : Z) (ratio : Q)
| UnknownStatus (label : string) (id : N)
| CompressionFailed
| CompressionCancelled
| Finished (runtime speed : Q)
| ErrorsOccurred
| TryingToCancel
| AlreadyStarted
| CancelledJobs.

Inductive Projection : Type :=
| MonitorFields
| StatusOnly.

Inductive Event : Type :=
| Log (lvl : Level) (m : LogMsg)
| ParserError (msg : string)
| Sleep
| InsertOne (entry : JobDoc)
| FindOne (id : N) (p : Projection)
| FindOneAndUpdate (id : N) (expected new : string).

(** ** The environment *)

Inductive Signal : Type :=
| Quiet
| SigintBefore
| SigintAfter.

Record Tick : Type := {
  worker : gmap N JobDoc -> gmap N JobDoc;
  interrupt : Signal
}.

(** What [main] reads from outside the job store. *)
Record Env : Type := {
  resolve : string -> string;
  read_lines : string -> list string;
  clock_ms : Z;
  config_uri : option string;
  fresh_id : N
}.

(** [trace] is kept newest first.  [job_id] is the local variable of
    [main] that the interrupt handler reads. *)
Record State : Type := {
  store : gmap N JobDoc;
  ticks : list Tick;
  trace : list Event;
  job_id : option N
}.

Definition emit (e : Event) (st : State) : State :=
  {| store := store st; ticks := ticks st;
     trace := e :: trace st; job_id := job_id st |}.

Definition step_env (s : gmap N JobDoc) (rest : list Tick) (st : State) : State :=
  {| store := s; ticks := rest; trace := trace st; job_id := job_id st |}.

(** ** A state and completion monad *)

Definition M (A : Type) : Type := State -> Completion A * State.

#[global] Instance M_ret : MRet M := fun A a st => (Normal a, st).

#[global] Instance M_bind : MBind M := fun A B k m st =>
  match m st with
  | (Normal a, st') => k a st'
  | (Returned c, st') => (Returned c, st')
  | (Raised e, st') => (Raised e, st')
  | (Blocked, st') => (Blocked, st')
  end.

Definition raise {A} (e : Exception) : M A := fun st => (Raised e, st).
Definition return_ {A} (code : Z) : M A := fun st => (Returned code, st).

(** [try: body except <catches>: handler] *)
Definition try_except {A} (body : M A) (catches : Exception -> bool)
    (handler : M A) : M A :=
  fun st =>
    match body st with
    | (Raised e, st') =>
        if catches e then handler st' else (Raised e, st')
    | r => r
    end.

Definition is_KeyError (e : Exception) : bool :=
  match e with KeyError _ => true | _ => false end.

Definition is_KeyboardInterrupt (e : Exception) : bool :=
  match e with KeyboardInterrupt => true | _ => false end.

Definition log (lvl : Level) (m : LogMsg) : M unit :=
  fun st => (Normal tt, emit (Log lvl m) st).

Definition set_job_id (v : option N) : M unit :=
  fun st => (Normal tt,
             {| store := store st; ticks := ticks st;
                trace := trace st; job_id := v |}).

Definition get_job_id : M (option N) :=
  fun st => (Normal (job_id st), st).

(** A blocking call: the call is recorded, the next tick of the script is
    consumed, other processes act on the collection, and the operation
    takes effect unless the interrupt arrives first. *)
Definition blocking {A} (ev : Event)
    (op : gmap N JobDoc -> Completion A * gmap N JobDoc) : M A :=
  fun st =>
    let st := emit ev st in
    match ticks st with
    | [] => (Blocked, st)
    | t :: rest =>
        let s := worker t (store st) in
        match interrupt t with
        | SigintBefore => (Raised KeyboardInterrupt, step_env s rest st)
        | Quiet => let (r, s') := op s in (r, step_env s' rest st)
        | SigintAfter =>
            let (r, s') := op s in
            (match r with
             | Normal _ => Raised KeyboardInterrupt
             | _ => r
             end, step_env s' rest st)
        end
    end.

Definition out_of_fuel {A} : M A := fun st => (Blocked, st).

(** ** The job collection (pymongo) *)

(** [time.sleep(1)] *)
Definition sleep : M unit :=
  blocking Sleep (fun s => (Normal tt, s)).

Definition insert_one_op (id : N) (entry : JobDoc) (s : gmap N JobDoc)
    : Completion N * gmap N JobDoc :=
  match s !! id with
  | Some _ => (Raised DuplicateKeyError, s)
  | None => (Normal id, <[id := entry]> s)
  end.

(** [jobs_collection.insert_one(entry)]; the driver draws the new
    document's [_id], here [id]. *)
Definition insert_one (id : N) (entry : JobDoc) : M N :=
  blocking (InsertOne entry) (insert_one_op id entry).

(** [jobs_collection.find_one({"_id": id}, projection=...)].  The
    projection is recorded in the event; the document is handed over
    whole and the callers read the projected fields only. *)
Definition find_one (id : N) (p : Projection) : M (option JobDoc) :=
  blocking (FindOne id p) (fun s => (Normal (s !! id), s)).

(** The store side of [find_one_and_update(filter={"_id": id, "status":
    expected}, update={"$set": {"status": new}})]: one atomic step that
    returns the matched document (as it was) or [None]. *)
Definition find_one_and_update_op (id : N) (expected new : string)
    (s : gmap N JobDoc) : Completion (option JobDoc) * gmap N JobDoc :=
  match s !! id with
  | Some d =>
      if String.eqb (status d) expected
      then (Normal (Some d), <[id := with_status new d]> s)
      else (Normal None, s)
  | None => (Normal None, s)
  end.

Definition find_one_and_update (id : N) (expected new : string)
    : M (option JobDoc) :=
  blocking (FindOneAndUpdate id expected new)
           (find_one_and_update_op id expected new).

(** ** Command-line arguments *)

Module Args.
(** The namespace returned by [args_parser.parse_args]. *)
Record t : Type := {
  config : string;
  paths : list string;
  input_list : option string;
  path_prefix_to_remove : option string;
  target_archive_size : option Z;
  target_archive_dictionaries_data_size : option Z;
  target_segment_size : option Z;
  target_encoded_file_size : option Z;
  target_num_archives : option Z
}.
End Args.

(** [getattr(args, attr)] for the attributes [main] asks for by name. *)
Definition getattr (args : Args.t) (attr : string) : M (option Z) :=
  if String.eqb attr "target_archive_size"
  then mret (Args.target_archive_size args)
  else if String.eqb attr "target_archive_dictionaries_data_size"
  then mret (Args.target_archive_dictionaries_data_size args)
  else if String.eqb attr "target_segment_size"
  then mret (Args.target_segment_size args)
  else if String.eqb attr "target_encoded_file_size"
  then mret (Args.target_encoded_file_size args)
  else if String.eqb attr "target_num_archives"
  then mret (Args.target_num_archives args)
  else raise (AttributeError attr).

(** [args_parser.error(msg)] prints the message and exits with status 2. *)
Definition parser_error {A} (msg : string) : M A :=
  fun st => (Raised (SystemExit 2), emit (ParserError msg) st).

Definition target_size_options : list string :=
  [ "--target-archive-size";
    "--target-archive-dictionaries-data-size";
    "--target-segment-size";
    "--target-encoded-file-size";
    "--target-num-archives" ].

(** [opt[n:]] *)
Fixpoint drop_chars (n : nat) (s : string) : string :=
  match n, s with
  | O, _ => s
  | S _, EmptyString => EmptyString
  | S n', String _ s' => drop_chars n' s'
  end.

(** [s.replace(a, b)] for one-character [a] and [b] *)
Fixpoint replace_char (a b : ascii) (s : string) : string :=
  match s with
  | EmptyString => EmptyString
  | String c s' =>
      String (if Ascii.eqb c a then b else c) (replace_char a b s')
  end.

Definition target_size_attributes : list string :=
  map (fun opt => replace_char "-" "_" (drop_chars 2 opt)) target_size_options.

Fixpoint for_each {A} (l : list A) (body : A -> M unit) : M unit :=
  match l with
  | [] => mret tt
  | x :: l' => body x ;; for_each l' body
  end.

Fixpoint for_fold {A S} (l : list A) (body : A -> S -> M S) (s : S) : M S :=
  match l with
  | [] => mret s
  | x :: l' => s' ← body x s; for_fold l' body s'
  end.

(** Lines 94-96, the body of the loop over the target sizes *)
Definition check_target_size (args : Args.t) (opt attr : string) : M unit :=
  value ← getattr args attr;
  match value with
  | Some v =>
      if v <=? 0
      then parser_error (opt +:+ " must be greater than 0.")
      else mret tt
  | None => mret tt
  end.

(** Lines 78-96: the paths come from exactly one of the two sources and
    every target size that is given is positive. *)
Definition validate_args (args : Args.t) : M unit :=
  (if bool_decide (Args.input_list args = None)
      && (0 =? Z.of_nat (length (Args.paths args)))
   then parser_error "No paths specified."
   else mret tt) ;;
  (if (Z.of_nat (length (Args.paths args)) >? 0)
      && negb (bool_decide (Args.input_list args = None))
   then parser_error
          "Paths cannot be specified on the command line AND through a file."
   else mret tt) ;;
  for_each (combine target_size_options target_size_attributes)
    (fun '(opt, attr) => check_target_size args opt attr).

(** White space as [str.isspace] knows it, on the UTF-8 bytes of the
    string: the one-byte characters U+0009-000D and U+001C-0020, *)
Definition is_space (c : ascii) : bool :=
  let n := N_of_ascii c in
  ((9 <=? n) && (n <=? 13) || (28 <=? n) && (n <=? 32))%N.

(** the two-byte characters U+0085 and U+00A0, *)
Definition is_space2 (c1 c2 : ascii) : bool :=
  let n1 := N_of_ascii c1 in
  let n2 := N_of_ascii c2 in
  ((n1 =? 194) && ((n2 =? 133) || (n2 =? 160)))%N.

(** and the three-byte characters U+1680, U+2000-200A, U+2028, U+2029,
    U+202F, U+205F and U+3000. *)
Definition is_space3 (c1 c2 c3 : ascii) : bool :=
  let n1 := N_of_ascii c1 in
  let n2 := N_of_ascii c2 in
  let n3 := N_of_ascii c3 in
  ((n1 =? 225) && (n2 =? 154) && (n3 =? 128)
   || (n1 =? 226) && (n2 =? 128)
      && ((128 <=? n3) && (n3 <=? 138)
          || (n3 =? 168) || (n3 =? 169) || (n3 =? 175))
   || (n1 =? 226) && (n2 =? 129) && (n3 =? 159)
   || (n1 =? 227) && (n2 =? 128) && (n3 =? 128))%N.

(** The number of bytes of the white-space character that [l] starts
    with, 0 when it starts with none. *)
Definition leading_space (l : list ascii) : nat :=
  match l with
  | c1 :: l1 =>
      if is_space c1 then 1%nat
      else match l1 with
           | c2 :: l2 =>
               if is_space2 c1 c2 then 2%nat
               else match l2 with
                    | c3 :: _ => if is_space3 c1 c2 c3 then 3%nat else O
                    | [] => O
                    end
           | [] => O
           end
  | [] => O
  end.

(** The same for the character that the string ends with; [r] is the
    string back to front. *)
Definition trailing_space (r : list ascii) : nat :=
  match r with
  | c3 :: r1 =>
      if is_space c3 then 1%nat
      else match r1 with
           | c2 :: r2 =>
               if is_space2 c2 c3 then 2%nat
               else match r2 with
                    | c1 :: _ => if is_space3 c1 c2 c3 then 3%nat else O
                    | [] => O
                    end
           | [] => O
           end
  | [] => O
  end.

(** Drops characters from the front of [l] for as long as [width] finds
    one there; the string is finite, so [length l] rounds suffice. *)
Fixpoint drop_spaces (width : list ascii -> nat) (fuel : nat)
    (l : list ascii) : list ascii :=
  match fuel with
  | O => l
  | S fuel' =>
      match width l with
      | O => l
      | n => drop_spaces width fuel' (skipn n l)
      end
  end.

Definition lstrip (l : list ascii) : list ascii :=
  drop_spaces leading_space (length l) l.

Definition rstrip (l : list ascii) : list ascii :=
  rev (drop_spaces trailing_space (length l) (rev l)).

(** [path_str.strip()] *)
Definition strip (s : string) : string :=
  string_of_list_ascii (rstrip (lstrip (list_ascii_of_string s))).

(** Lines 106-123 *)
Definition collect_input_paths (args : Args.t) (env : Env) : list string :=
  match Args.input_list args with
  | None =>
      flat_map
        (fun path_str =>
           let stripped_path_str := strip path_str in
           if String.eqb "" stripped_path_str then []
           else [resolve env stripped_path_str])
        (Args.paths args)
  | Some input_list => read_lines env (resolve env input_list)
  end.

(** Lines 128-130, the body of the loop that fills [output_config] *)
Definition add_target_size (args : Args.t) (attr : string)
    (output_config : gmap string Z) : M (gmap string Z) :=
  value ← getattr args attr;
  match value with
  | Some v => mret (<[attr := v]> output_config)
  | None => mret output_config
  end.

(** Lines 126-130 *)
Definition make_output_config (args : Args.t) : M (gmap string Z) :=
  for_fold target_size_attributes (add_target_size args) ∅.

(** Lines 133-144 *)
Definition make_entry (args : Args.t) (env : Env) (input_paths : list string)
    (oc : gmap string Z) : JobDoc :=
  {| input_type := "fs";
     input_config :=
       {| paths := input_paths;
          path_prefix_to_remove := Args.path_prefix_to_remove args |};
     status := "pending";
     submission_timestamp := clock_ms env;
     logs_uncompressed_size := 0;
     logs_compressed_size := 0;
     errors := false;
     output_config := oc;
     begin_timestamp := None;
     end_timestamp := None |}.

(** ** The polling loop (lines 162-229) *)

(** True division; Python raises on a zero divisor. *)
Definition py_div (x y : Q) : M Q :=
  if Qeq_bool y 0 then raise ZeroDivisionError else mret (x / y)%Q.

(** [doc[key]] for a field the worker may not have written yet. *)
Definition getitem {A} (key : string) (field : option A) : M A :=
  match field with
  | Some v => mret v
  | None => raise (KeyError key)
  end.

(** [JobStatus.from_str(label)] as a statement *)
Definition JobStatus_from_str (label : string) : M JobStatus :=
  match from_str label with
  | Some s => mret s
  | None => raise (KeyError label)
  end.

(** Lines 183-193; the result is the new [last_uncompressed_size]. *)
Definition report_progress (last_uncompressed_size : Z) (doc : JobDoc) : M Z :=
  let uncompressed_size := logs_uncompressed_size doc in
  let compressed_size := logs_compressed_size doc in
  if last_uncompressed_size <? uncompressed_size then
    ratio ← py_div (inject_Z compressed_size) (inject_Z uncompressed_size);
    log INFO (Progress uncompressed_size compressed_size (ratio * 100)%Q) ;;
    mret uncompressed_size
  else mret last_uncompressed_size.

(** [end - begin]: two integers give an integer, two datetimes a
    timedelta, a mixed pair is a type error. *)
Definition sub_timestamps (e b : Timestamp) : M Delta :=
  match e, b with
  | Millis e', Millis b' => mret (IntDelta (e' - b'))
  | Datetime e', Datetime b' => mret (Timedelta (e' - b'))
  | _, _ => raise TypeError
  end.

(** Lines 211-215: [total_seconds()] of a timedelta, milliseconds over
    1000 otherwise. *)
Definition runtime_seconds (runtime_delta : Delta) : Q :=
  match runtime_delta with
  | Timedelta us => (inject_Z us / inject_Z 1000000)%Q
  | IntDelta ms => (inject_Z ms / inject_Z 1000)%Q
  end.

Inductive Ctl : Type := Continue | Break.

(** Lines 209-229 *)
Definition handle_done (last_uncompressed_size : Z) (doc : JobDoc) : M Ctl :=
  e ← getitem "end_timestamp" (end_timestamp doc);
  b ← getitem "begin_timestamp" (begin_timestamp doc);
  runtime_delta ← sub_timestamps e b;
  let runtime := runtime_seconds runtime_delta in
  speed ← py_div (inject_Z last_uncompressed_size) runtime;
  log INFO (Finished runtime speed) ;;
  (if errors doc then log ERROR ErrorsOccurred else mret tt) ;;
  mret Break.

(** Lines 195-229 *)
Definition handle_status (id : N) (last_uncompressed_size : Z) (doc : JobDoc)
    : M Ctl :=
  job_status ←
    try_except (JobStatus_from_str (status doc)) is_KeyError
      (log ERROR (UnknownStatus (status doc) id) ;; return_ (-1));
  if JobStatus_eqb FAILED job_status then
    log ERROR CompressionFailed ;; mret Break
  else if JobStatus_eqb CANCELLED job_status then
    log ERROR CompressionCancelled ;; mret Break
  else if JobStatus_eqb DONE job_status then
    handle_done last_uncompressed_size doc
  else mret Continue.

(** One pass through the body of [while True] (lines 164-229): the
    result is the loop control and the new [last_uncompressed_size]. *)
Definition monitor_iteration (id : N) (last_uncompressed_size : Z)
    : M (Ctl * Z) :=
  sleep ;;
  doc ← find_one id MonitorFields;
  match doc with
  | None => log ERROR JobDisappeared ;; return_ (-1)
  | Some doc =>
      last' ← report_progress last_uncompressed_size doc;
      ctl ← handle_status id last' doc;
      mret (ctl, last')
  end.

Fixpoint monitor_loop (fuel : nat) (id : N) (last_uncompressed_size : Z)
    : M unit :=
  match fuel with
  | O => out_of_fuel
  | S fuel' =>
      r ← monitor_iteration id last_uncompressed_size;
      match r with
      | (Break, _) => mret tt
      | (Continue, last') => monitor_loop fuel' id last'
      end
  end.

(** ** The interrupt handler (lines 230-255) *)

(** Lines 244-255 *)
Fixpoint cancel_wait_loop (fuel : nat) (id : N) : M unit :=
  match fuel with
  | O => out_of_fuel
  | S fuel' =>
      sleep ;;
      doc ← find_one id StatusOnly;
      match doc with
      | None => log ERROR JobDisappeared ;; return_ (-1)
      | Some doc =>
          job_status ← JobStatus_from_str (status doc);
          if JobStatus_eqb CANCELLED job_status
             || JobStatus_eqb DONE job_status
          then log INFO CancelledJobs
          else cancel_wait_loop fuel' id
      end
  end.

(** Lines 234-237 *)
Definition request_cancellation (id : N) : M (option JobDoc) :=
  find_one_and_update id (JobStatus_str PENDING) (JobStatus_str CANCELLING).

Definition on_keyboard_interrupt (fuel : nat) : M unit :=
  log INFO TryingToCancel ;;
  job_id ← get_job_id;
  match job_id with
  | Some id =>
      result ← request_cancellation id;
      match result with
      | None => log ERROR AlreadyStarted
      | Some _ => cancel_wait_loop fuel id
      end
  | None => mret tt
  end.

(** ** [main] *)

(** Lines 100-104: [config_uri env = None] stands for a configuration
    that [CLPConfig.parse_obj] rejects with a [ValidationError]. *)
Definition load_config (env : Env) : M string :=
  match config_uri env with
  | Some uri => mret uri
  | None => log ERROR ValidationFailed ;; return_ (-1)
  end.

(** Lines 153-229, the body of the [try] statement *)
Definition submit_and_monitor (fuel : nat) (env : Env) (entry : JobDoc)
    : M unit :=
  inserted_id ← insert_one (fresh_id env) entry;
  set_job_id (Some inserted_id) ;;
  log INFO (Submitted inserted_id) ;;
  log INFO WaitingForUpdates ;;
  monitor_loop fuel inserted_id 0.

(** Lines 152-257: the [try] statement and the final [return 0] *)
Definition run_job (fuel : nat) (env : Env) (entry : JobDoc) : M unit :=
  set_job_id None ;;
  try_except (submit_and_monitor fuel env entry) is_KeyboardInterrupt
    (on_keyboard_interrupt fuel) ;;
  return_ 0.

Definition main_fuel (fuel : nat) (args : Args.t) (env : Env) : M unit :=
  validate_args args ;;
  _ ← load_config env;
  let input_paths := collect_input_paths args env in
  output_config ← make_output_config args;
  let entry := make_entry args env input_paths output_config in
  run_job fuel env entry.

(** Every pass through either loop consumes a tick, so one unit of fuel
    per tick of the script, and one to spare, is never used up. *)
Definition main (args : Args.t) (env : Env) : M unit :=
  fun st => main_fuel (S (length (ticks st))) args env st.

Definition initial (s : gmap N JobDoc) (script : list Tick) : State :=
  {| store := s; ticks := script; trace := []; job_id := None |}.

(** Lines 260-261, [sys.exit(main(sys.argv))]: the exit status of the
    process, [None] while the run has not ended.  An uncaught exception
    ends the interpreter with status 1, [SystemExit] with its code, an
    uncaught [KeyboardInterrupt] with 130. *)
Definition exit_status (c : Completion unit) : option Z :=
  match c with
  | Returned code => Some (code mod 256)
  | Normal _ => Some 0
  | Raised (SystemExit code) => Some (code mod 256)
  | Raised KeyboardInterrupt => Some 130
  | Raised _ => Some 1
  | Blocked => None
  end.

(** * Vocabulary of the properties *)

(** The progress reports of a trace, newest first. *)
Definition progress_reports (tr : list Event) : list (Z * Z * Q) :=
  flat_map (fun e => match e with
                     | Log _ (Progress u c r) => [(u, c, r)]
                     | _ => []
                     end) tr.

(** The documents handed to [insert_one]. *)
Definition inserts (tr : list Event) : list JobDoc :=
  flat_map (fun e => match e with InsertOne d => [d] | _ => [] end) tr.

(** The messages logged at level [ERROR], newest first. *)
Definition error_lines (tr : list Event) : list LogMsg :=
  flat_map (fun e => match e with Log ERROR m => [m] | _ => [] end) tr.

(** The most recent log line. *)
Fixpoint last_log (tr : list Event) : option LogMsg :=
  match tr with
  | [] => None
  | Log _ m :: _ => Some m
  | _ :: tr' => last_log tr'
  end.

Definition terminal_report (m : LogMsg) : bool :=
  match m with
  | CompressionFailed | CompressionCancelled | Finished _ _
  | ErrorsOccurred | CancelledJobs => true
  | _ => false
  end.

Definition fatal_report (m : LogMsg) : bool :=
  match m with
  | ValidationFailed | JobDisappeared | UnknownStatus _ _ => true
  | _ => false
  end.

Definition delta_value (d : Delta) : Z :=
  match d with IntDelta z | Timedelta z => z end.

(** The state in which a blocking call that was not interrupted leaves
    the client: event recorded, one tick consumed. *)
Definition after_call (ev : Event) (s : gmap N JobDoc) (rest : list Tick)
    (st : State) : State :=
  step_env s rest (emit ev st).

Definition benign (tr : list Event) : Prop :=
  match last_log tr with
  | Some m => terminal_report m = false /\ fatal_report m = false
  | None => True
  end.

(** Every progress report of the trace divides by a positive size and
    shows the ratio of the two sizes it names. *)
Definition positive_reports (tr : list Event) : Prop :=
  Forall (fun r => 0 < r.1.1 /\
                   r.2 = (inject_Z r.1.2 / inject_Z r.1.1 * 100)%Q)
         (progress_reports tr).

Definition not_exit (e : Exception) : Prop :=
  match e with SystemExit _ => False | _ => True end.

Definition frame (st st' : State) : Prop :=
  inserts (trace st') = inserts (trace st) /\
  (positive_reports (trace st) -> positive_reports (trace st')) /\
  (length (ticks st') <= length (ticks st))%nat /\
  job_id st' = job_id st.

(** How a loop of [main] may end, read off the completion and the trace. *)
Definition loop_post (c : Completion unit) (tr : list Event) : Prop :=
  match c with
  | Normal _ => exists m, last_log tr = Some m /\ terminal_report m = true
  | Returned code =>
      code = -1 /\ exists m, last_log tr = Some m /\ fatal_report m = true
  | Raised e => benign tr /\ not_exit e
  | Blocked => benign tr
  end.

Ltac unfold_monad :=
  unfold mbind, M_bind, mret, M_ret, raise, return_, log, try_except,
    get_job_id, set_job_id, out_of_fuel in *.

Definition store_call (ev : Event) : Prop :=
  match ev with
  | Sleep | FindOne _ _ | FindOneAndUpdate _ _ _ => True
  | _ => False
  end.

(** How a run of [main] may end. *)
Definition main_post (c : Completion unit) (tr : list Event) : Prop :=
  match c with
  | Normal _ => False
  | Returned code =>
      (code = 0 /\ exists m, last_log tr = Some m /\ fatal_report m = false) \/
      (code = -1 /\ exists m, last_log tr = Some m /\ fatal_report m = true)
  | Raised e => benign tr /\ (e = SystemExit 2 \/ not_exit e)
  | Blocked => benign tr
  end.

Definition positive_or_absent (o : option Z) : Prop :=
  match o with
  | Some v => 0 < v
  | None => True
  end.

(** An invocation that passes the checks of lines 78-96. *)
Definition valid_args (args : Args.t) : Prop :=
  (Args.input_list args = None <-> Args.paths args <> []) /\
  positive_or_absent (Args.target_archive_size args) /\
  positive_or_absent (Args.target_archive_dictionaries_data_size args) /\
  positive_or_absent (Args.target_segment_size args) /\
  positive_or_absent (Args.target_encoded_file_size args) /\
  positive_or_absent (Args.target_num_archives args).

(** The tuning parameter given on the command line under the name
    [attr], if any. *)
Definition supplied (args : Args.t) (attr : string) : option Z :=
  if String.eqb attr "target_archive_size"
  then Args.target_archive_size args
  else if String.eqb attr "target_archive_dictionaries_data_size"
  then Args.target_archive_dictionaries_data_size args
  else if String.eqb attr "target_segment_size"
  then Args.target_segment_size args
  else if String.eqb attr "target_encoded_file_size"
  then Args.target_encoded_file_size args
  else if String.eqb attr "target_num_archives"
  then Args.target_num_archives args
  else None.

Definition check_post (c : Completion unit) (st st' : State) : Prop :=
  (c = Normal tt /\ st' = st) \/
  (c = Raised (SystemExit 2) /\ exists msg, st' = emit (ParserError msg) st).

(** The states in which the polling loop that starts in [st0] is at the
    top of its body, with the value of [last_uncompressed_size] there. *)
Inductive loop_head (id : N) (st0 : State) : Z -> State -> Prop :=
| head_first : loop_head id st0 0 st0
| head_next last st last' st' :
    loop_head id st0 last st ->
    monitor_iteration id last st = (Normal (Continue, last'), st') ->
    loop_head id st0 last' st'.

(** The state after [time.sleep(1)] and [find_one] have both returned. *)
Definition polled (id : N) (t1 t2 : Tick) (rest : list Tick) (st : State)
    : State :=
  after_call (FindOne id MonitorFields) (worker t2 (worker t1 (store st))) rest
    (after_call Sleep (worker t1 (store st)) (t2 :: rest) st).

(** The completion reports of a trace, newest first. *)
Definition finished_reports (tr : list Event) : list (Q * Q) :=
  flat_map (fun e => match e with
                     | Log _ (Finished runtime speed) => [(runtime, speed)]
                     | _ => []
                     end) tr.

Module Scenario.

(** [compress.py /a /b], no tuning parameters *)
Definition args : Args.t :=
  {| Args.config := "/opt/clp/etc/clp-config.yaml";
     Args.paths := ["/a"; "/b"];
     Args.input_list := None;
     Args.path_prefix_to_remove := None;
     Args.target_archive_size := None;
     Args.target_archive_dictionaries_data_size := None;
     Args.target_segment_size := None;
     Args.target_encoded_file_size := None;
     Args.target_num_archives := None |}.

Definition env : Env :=
  {| resolve := fun p => p;
     read_lines := fun _ => [];
     clock_ms := 1700000000000;
     config_uri := Some "mongodb://localhost:27017/clp-results";
     fresh_id := 1%N |}.

Definition entry : JobDoc :=
  make_entry args env (collect_input_paths args env) ∅.

(** Nothing happens during the call. *)
Definition quiet : Tick := {| worker := fun s => s; interrupt := Quiet |}.

(** Ctrl-C arrives during the call. *)
Definition ctrl_c : Tick :=
  {| worker := fun s => s; interrupt := SigintBefore |}.

(** The worker rewrites the job document during the call. *)
Definition worker_does (f : JobDoc -> JobDoc) : Tick :=
  {| worker := alter f 1%N; interrupt := Quiet |}.

Definition compressed (u c : Z) (d : JobDoc) : JobDoc :=
  {| input_type := input_type d;
     input_config := input_config d;
     status := status d;
     submission_timestamp := submission_timestamp d;
     logs_uncompressed_size := u;
     logs_compressed_size := c;
     errors := errors d;
     output_config := output_config d;
     begin_timestamp := begin_timestamp d;
     end_timestamp := end_timestamp d |}.

Definition finished (b e : Timestamp) (d : JobDoc) : JobDoc :=
  {| input_type := input_type d;
     input_config := input_config d;
     status := "done";
     submission_timestamp := submission_timestamp d;
     logs_uncompressed_size := logs_uncompressed_size d;
     logs_compressed_size := logs_compressed_size d;
     errors := errors d;
     output_config := output_config d;
     begin_timestamp := Some b;
     end_timestamp := Some e |}.

(** The worker starts the job, compresses 1,000,000 bytes into 250,000
    and finishes after 2000 ms. *)
Definition completes : list Tick :=
  [ quiet;
    worker_does (with_status "running"); quiet;
    worker_does (compressed 1000000 250000); quiet;
    worker_does (finished (Millis 1000) (Millis 3000)); quiet ].

(** The job is started before Ctrl-C arrives during the second sleep. *)
Definition interrupted_after_start : list Tick :=
  [ quiet;
    worker_does (with_status "running"); quiet;
    ctrl_c;
    quiet ].

(** Ctrl-C arrives while the job is pending; the cancellation request
    succeeds and the next poll then finds a status the client does not
    know. *)
Definition cancel_then_unknown : list Tick :=
  [ quiet;
    ctrl_c;
    quiet;
    worker_does (with_status "bogus"); quiet ].

(** The same unknown status, met by the polling loop. *)
Definition monitor_then_unknown : list Tick :=
  [ quiet;
    worker_does (with_status "bogus"); quiet ].

(** A job document that is DONE with equal timestamps. *)
Definition instant : JobDoc :=
  finished (Millis 5000) (Millis 5000) (compressed 10 5 entry).

(** A state at the top of the polling loop with two quiet ticks ahead
    and the job document [d] in the collection. *)
Definition polling (d : JobDoc) : State :=
  {| store := {[ 1%N := d ]}; ticks := [quiet; quiet]; trace := [];
     job_id := Some 1%N |}.

End Scenario.

Module Cases.

(** [compress.py] without paths and without an input list. *)
Definition no_paths : Args.t :=
  {| Args.config := "/opt/clp/etc/clp-config.yaml";
     Args.paths := [];
     Args.input_list := None;
     Args.path_prefix_to_remove := None;
     Args.target_archive_size := None;
     Args.target_archive_dictionaries_data_size := None;
     Args.target_segment_size := None;
     Args.target_encoded_file_size := None;
     Args.target_num_archives := None |}.

(** A configuration file that [CLPConfig.parse_obj] rejects. *)
Definition bad_config : Env :=
  {| resolve := fun p => p;
     read_lines := fun _ => [];
     clock_ms := 1700000000000;
     config_uri := None;
     fresh_id := 1%N |}.

(** U+00A0, the no-break space, and U+2003, the em space, in UTF-8. *)
Definition nbsp : string :=
  String (ascii_of_N 194) (String (ascii_of_N 160) EmptyString).

Definition em_space : string :=
  String (ascii_of_N 226)
    (String (ascii_of_N 128) (String (ascii_of_N 131) EmptyString)).

(** [compress.py "  " "<U+00A0>" ""]: paths that are blank once
    stripped. *)
Definition blank_paths : Args.t :=
  {| Args.config := "/opt/clp/etc/clp-config.yaml";
     Args.paths := ["  "; nbsp; ""];
     Args.input_list := None;
     Args.path_prefix_to_remove := Some "/var";
     Args.target_archive_size := None;
     Args.target_archive_dictionaries_data_size := None;
     Args.target_segment_size := None;
     Args.target_encoded_file_size := None;
     Args.target_num_archives := None |}.

(** [compress.py " /a<U+2003>" "<U+00A0>" "/b" --path-prefix-to-remove /
    --target-archive-size 1024] *)
Definition padded_paths : Args.t :=
  {| Args.config := "/opt/clp/etc/clp-config.yaml";
     Args.paths := [" /a" +:+ em_space; nbsp; "/b"];
     Args.input_list := None;
     Args.path_prefix_to_remove := Some "/";
     Args.target_archive_size := Some 1024;
     Args.target_archive_dictionaries_data_size := None;
     Args.target_segment_size := None;
     Args.target_encoded_file_size := None;
     Args.target_num_archives := None |}.

(** The job document is deleted while the client sleeps. *)
Definition deleting : Tick :=
  {| worker := delete 1%N; interrupt := Quiet |}.

(** At the top of a loop, the job document [Scenario.entry] in the
    collection, about to be deleted. *)
Definition vanishing : State :=
  {| store := {[ 1%N := Scenario.entry ]};
     ticks := [deleting; Scenario.quiet]; trace := [];
     job_id := Some 1%N |}.

(** A job that finished after two seconds with errors. *)
Definition lossy : JobDoc :=
  {| input_type := "fs";
     input_config := input_config Scenario.entry;
     status := "done";
     submission_timestamp := 1700000000000;
     logs_uncompressed_size := 1000000;
     logs_compressed_size := 250000;
     errors := true;
     output_config := ∅;
     begin_timestamp := Some (Datetime 1000000);
     end_timestamp := Some (Datetime 3000000) |}.

(** Ctrl-C during the first sleep, and again during the conditional
    update. *)
Definition interrupted_twice : list Tick :=
  [Scenario.quiet; Scenario.ctrl_c; Scenario.ctrl_c].

(** Ctrl-C during the first sleep, the job still pending, nobody else
    at work. *)
Definition interrupted_while_pending : list Tick :=
  [Scenario.quiet; Scenario.ctrl_c; Scenario.quiet; Scenario.quiet].

(** The job document is deleted during the first sleep of the polling
    loop. *)
Definition job_deleted : list Tick :=
  [Scenario.quiet; deleting; Scenario.quiet].

(** The worker reports a failure before the first poll. *)
Definition job_fails : list Tick :=
  [Scenario.quiet; Scenario.worker_does (with_status "failed");
   Scenario.quiet].

(** Ctrl-C during the first sleep while the job is pending; the worker
    then acknowledges the cancellation. *)
Definition cancel_acknowledged : list Tick :=
  [Scenario.quiet; Scenario.ctrl_c; Scenario.quiet;
   Scenario.worker_does (with_status "cancelled"); Scenario.quiet].

(** Ctrl-C during the first sleep while the job is pending; the job
    document is deleted while the client waits for the cancellation. *)
Definition cancel_then_deleted : list Tick :=
  [Scenario.quiet; Scenario.ctrl_c; Scenario.quiet;
   deleting; Scenario.quiet].

(** The job is done, after two seconds, before the first poll. *)
Definition finishes_at_once : list Tick :=
  [Scenario.quiet;
   Scenario.worker_does (Scenario.finished (Millis 1000) (Millis 3000));
   Scenario.quiet].


End Cases.

(** The state after [time.sleep(1)] and the status-only [find_one] of the
    cancellation wait have both returned. *)
Definition polled_status (id : N) (t1 t2 : Tick) (rest : list Tick)
    (st : State) : State :=
  after_call (FindOne id StatusOnly) (worker t2 (worker t1 (store st))) rest
    (after_call Sleep (worker t1 (store st)) (t2 :: rest) st).

(** The state in which the polling loop goes on after a poll of [doc] that
    did not end it: the progress report, if one was due, is in the trace. *)
Definition progressed (last : Z) (doc : JobDoc) (st : State) : State :=
  if last <? logs_uncompressed_size doc
  then emit (Log INFO (Progress (logs_uncompressed_size doc)
                         (logs_compressed_size doc)
                         (inject_Z (logs_compressed_size doc)
                          / inject_Z (logs_uncompressed_size doc) * 100)%Q))
            st
  else st.

(** The conditional updates requested in a trace, newest first. *)
Definition updates (tr : list Event) : list (N * string * string) :=
  flat_map (fun e => match e with
                     | FindOneAndUpdate id expected new => [(id, expected, new)]
                     | _ => []
                     end) tr.

(** How often a trace polls the store. *)
Fixpoint polls (tr : list Event) : nat :=
  match tr with
  | [] => 0
  | FindOne _ _ :: tr' => S (polls tr')
  | _ :: tr' => polls tr'
  end.

(** How often a trace sleeps. *)
Fixpoint sleeps (tr : list Event) : nat :=
  match tr with
  | [] => 0
  | Sleep :: tr' => S (sleeps tr')
  | _ :: tr' => sleeps tr'
  end.

(** From [st] to [st'] the client has written nothing to the collection:
    it consumed a stretch of the script, and the collection is what the
    other processes made of it over that stretch. *)
Definition read_only (st st' : State) : Prop :=
  exists consumed,
    ticks st = (consumed ++ ticks st')%list /\
    store st' = fold_left (fun s t => worker t s) consumed (store st).

(** From [st] to [st'] the client requested no update, polled no more
    often than it slept, wrote nothing and kept [job_id]. *)
Definition paced (st st' : State) : Prop :=
  updates (trace st') = updates (trace st) /\
  (polls (trace st') + sleeps (trace st)
   <= sleeps (trace st') + polls (trace st))%nat /\
  read_only st st' /\
  job_id st' = job_id st.

(** A step that only logs. *)
Definition logs_only (st st' : State) : Prop :=
  store st' = store st /\ ticks st' = ticks st /\ job_id st' = job_id st /\
  updates (trace st') = updates (trace st) /\
  polls (trace st') = polls (trace st) /\
  sleeps (trace st') = sleeps (trace st).

(** No other process touches the collection. *)
Definition silent (script : list Tick) : Prop :=
  Forall (fun t => forall s, worker t s = s) script.

(** The job document that [main] builds from the arguments (lines
    106-144). *)
Definition builds (args : Args.t) (env : Env) (entry : JobDoc) : Prop :=
  exists oc,
    (forall attr, oc !! attr = supplied args attr) /\
    entry = make_entry args env (collect_input_paths args env) oc.

(** The state of a run that started in [initial s0 (t :: rest)] when
    [insert_one] has returned the id and lines 156-162 are done, [s]
    being the collection as the call found it: the document is in the
    collection under the new id, and the polling loop is about to
    start. *)
Definition submitted (env : Env) (entry : JobDoc) (s : gmap N JobDoc)
    (rest : list Tick) : State :=
  {| store := <[fresh_id env := entry]> s;
     ticks := rest;
     trace := [Log INFO WaitingForUpdates;
               Log INFO (Submitted (fresh_id env));
               InsertOne entry];
     job_id := Some (fresh_id env) |}.

(** What is left of [main] at the top of the polling loop (lines
    163-257): the loop inside the [try], the handler, [return 0]. *)
Definition rest_of_main (fuel loop_fuel : nat) (id : N) (last : Z) : M unit :=
  try_except (monitor_loop loop_fuel id last) is_KeyboardInterrupt
    (on_keyboard_interrupt fuel) ;;
  return_ 0.

(** The state in which the wait for the cancellation starts: the
    handler, entered in [st1], has logged that it tries to cancel and its
    conditional update has matched the pending document [d]. *)
Definition cancelling (id : N) (t : Tick) (rest : list Tick) (d : JobDoc)
    (st1 : State) : State :=
  after_call
    (FindOneAndUpdate id (JobStatus_str PENDING) (JobStatus_str CANCELLING))
    (<[id := with_status (JobStatus_str CANCELLING) d]>
       (worker t (store st1)))
    rest (emit (Log INFO TryingToCancel) st1).

(** The states in which the wait for the cancellation that starts in
    [st0] is at the top of its body. *)
Inductive wait_head (id : N) (st0 : State) : State -> Prop :=
| wait_first : wait_head id st0 st0
| wait_next st t1 t2 rest doc js :
    wait_head id st0 st ->
    ticks st = t1 :: t2 :: rest ->
    interrupt t1 = Quiet -> interrupt t2 = Quiet ->
    worker t2 (worker t1 (store st)) !! id = Some doc ->
    from_str (status doc) = Some js ->
    js <> CANCELLED -> js <> DONE ->
    wait_head id st0 (polled_status id t1 t2 rest st).

(** Both timestamps are there, of one kind, and differ. *)
Definition usable_runtime (doc : JobDoc) : Prop :=
  match end_timestamp doc, begin_timestamp doc with
  | Some (Millis e), Some (Millis b) => e <> b
  | Some (Datetime e), Some (Datetime b) => e <> b
  | _, _ => False
  end.

(** The run of [main] on [args], [env], the collection [s] and [script]
    comes to the top of the polling loop in state [st], with [last] the
    value of [last_uncompressed_size]: the invocation is valid, the
    configuration was accepted and [insert_one] returned the id. *)
Definition polls_at (args : Args.t) (env : Env) (s : gmap N JobDoc)
    (script : list Tick) (last : Z) (st : State) : Prop :=
  valid_args args /\ config_uri env <> None /\
  exists t0 rest entry,
    script = t0 :: rest /\ interrupt t0 = Quiet /\
    worker t0 s !! fresh_id env = None /\
    builds args env entry /\
    loop_head (fresh_id env) (submitted env entry (worker t0 s) rest) last st.

(** The run comes to the top of the wait for the cancellation in state
    [st]: a pass through the polling loop was interrupted and the
    conditional update of the handler found the job pending. *)
Definition waits_at (args : Args.t) (env : Env) (s : gmap N JobDoc)
    (script : list Tick) (st : State) : Prop :=
  exists last stp st1 t rest d,
    polls_at args env s script last stp /\
    monitor_iteration (fresh_id env) last stp
      = (Raised KeyboardInterrupt, st1) /\
    ticks st1 = t :: rest /\ interrupt t = Quiet /\
    worker t (store st1) !! fresh_id env = Some d /\
    status d = JobStatus_str PENDING /\
    wait_head (fresh_id env) (cancelling (fresh_id env) t rest d st1) st.



(** * Properties *)

(** ** The monad *)

Lemma bind_run {A B} (m : M A) (k : A -> M B) (st : State) :
  (m ≫= k) st =
  match m st with
  | (Normal a, st') => k a st'
  | (Returned c, st') => (Returned c, st')
  | (Raised e, st') => (Raised e, st')
  | (Blocked, st') => (Blocked, st')
  end.
Proof. reflexivity. Qed.

Lemma blocking_quiet {A} ev (op : gmap N JobDoc -> Completion A * gmap N JobDoc)
    st t rest :
  ticks st = t :: rest -> interrupt t = Quiet ->
  blocking ev op st =
  ((op (worker t (store st))).1,
   after_call ev (op (worker t (store st))).2 rest st).
Proof.
  intros Ht Hq. unfold blocking, after_call. simpl. rewrite Ht, Hq.
  destruct (op _); reflexivity.
Qed.

(** ** Rationals *)

Lemma runtime_zero (d : Delta) :
  Qeq_bool (runtime_seconds d) 0 = true <-> delta_value d = 0.
Proof.
  rewrite Qeq_bool_iff.
  destruct d; unfold runtime_seconds, Qeq; simpl; lia.
Qed.

Lemma size_zero (z : Z) : Qeq_bool (inject_Z z) 0 = true <-> z = 0.
Proof. rewrite Qeq_bool_iff. unfold Qeq; simpl; lia. Qed.

(** ** Conditional cancellation *)


Lemma from_str_str (s : JobStatus) : from_str (JobStatus_str s) = Some s.
Proof. destruct s; reflexivity. Qed.

Lemma from_str_Some (label : string) (s : JobStatus) :
  from_str label = Some s -> label = JobStatus_str s.
Proof.
  unfold from_str.
  repeat match goal with
         | |- context [String.eqb ?a ?b] =>
             destruct (String.eqb_spec a b) as [->|_]
         end; intros H; inversion H; reflexivity.
Qed.


(** ** Framing: what a statement may do to the trace and the script *)

Lemma frame_refl st : frame st st.
Proof. unfold frame; auto. Qed.

Lemma frame_trans st1 st2 st3 : frame st1 st2 -> frame st2 st3 -> frame st1 st3.
Proof.
  unfold frame. intros (?&?&?&?) (?&?&?&?).
  repeat split; [congruence | auto | lia | congruence].
Qed.

(** A blocking call records its event, keeps [job_id], and either stays
    blocked on an empty script or consumes exactly one tick. *)
Lemma blocking_post {A} ev (op : gmap N JobDoc -> Completion A * gmap N JobDoc)
    st c st' :
  blocking ev op st = (c, st') ->
  trace st' = ev :: trace st /\ job_id st' = job_id st /\
  ((c = Blocked /\ ticks st = [] /\ ticks st' = []) \/
   (exists t, ticks st = t :: ticks st' /\
      (c = Raised KeyboardInterrupt \/ exists s, c = (op s).1))).
Proof.
  unfold blocking. simpl. intros H.
  destruct (ticks st) as [|t rest] eqn:Ht.
  { inversion H; subst; simpl. rewrite Ht. auto 10. }
  destruct (interrupt t).
  - destruct (op (worker t (store st))) as [r s'] eqn:Hop.
    inversion H; subst; simpl. split; [reflexivity|]. split; [reflexivity|].
    right. exists t. split; [reflexivity|]. right.
    exists (worker t (store st)). rewrite Hop. reflexivity.
  - inversion H; subst; simpl. eauto 10.
  - destruct (op (worker t (store st))) as [r s'] eqn:Hop.
    inversion H; subst; simpl. split; [reflexivity|]. split; [reflexivity|].
    right. exists t. split; [reflexivity|].
    destruct r; [left; reflexivity | right ..];
      exists (worker t (store st)); rewrite Hop; reflexivity.
Qed.

Lemma blocking_frame {A} ev (op : gmap N JobDoc -> Completion A * gmap N JobDoc)
    st c st' :
  blocking ev op st = (c, st') ->
  store_call ev ->
  (forall s, (op s).1 <> Blocked) ->
  frame st st' /\ last_log (trace st') = last_log (trace st) /\
  (c = Blocked -> ticks st' = []) /\
  (c <> Blocked -> (length (ticks st') < length (ticks st))%nat).
Proof.
  intros H Hev Hop. apply blocking_post in H as (Htr & Hid & Hc).
  unfold frame, positive_reports. rewrite Htr.
  assert (Hlen : (length (ticks st') <= length (ticks st))%nat).
  { destruct Hc as [(_ & -> & ->) | (t & -> & _)]; simpl; lia. }
  assert (Hb : c = Blocked -> ticks st' = []).
  { intros ->. destruct Hc as [(_ & _ & ?) | (t & _ & [? | (s & Hs)])];
      [assumption | discriminate | exfalso; exact (Hop s (eq_sym Hs))]. }
  assert (Hnb : c <> Blocked -> (length (ticks st') < length (ticks st))%nat).
  { intros Hne. destruct Hc as [(? & _ & _) | (t & -> & _)];
      [contradiction | simpl; lia]. }
  destruct ev; try contradiction; simpl; auto 10.
Qed.

(** ** The progress report *)

Lemma report_progress_run last doc st :
  0 <= last ->
  report_progress last doc st =
  if last <? logs_uncompressed_size doc
  then (Normal (logs_uncompressed_size doc),
        emit (Log INFO (Progress (logs_uncompressed_size doc)
                          (logs_compressed_size doc)
                          (inject_Z (logs_compressed_size doc)
                           / inject_Z (logs_uncompressed_size doc) * 100)%Q))
             st)
  else (Normal last, st).
Proof.
  intros Hlast. unfold report_progress.
  destruct (Z.ltb_spec last (logs_uncompressed_size doc)) as [Hlt|Hge];
    [|reflexivity].
  unfold py_div.
  destruct (Qeq_bool (inject_Z (logs_uncompressed_size doc)) 0) eqn:Hz.
  - apply size_zero in Hz. lia.
  - reflexivity.
Qed.

Lemma report_progress_post last doc st c st' :
  0 <= last ->
  report_progress last doc st = (c, st') ->
  exists last', c = Normal last' /\ 0 <= last' /\
    last' = Z.max last (logs_uncompressed_size doc) /\
    frame st st' /\ ticks st' = ticks st /\
    (benign (trace st) -> benign (trace st')).
Proof.
  intros Hlast H. rewrite report_progress_run in H by assumption.
  destruct (Z.ltb_spec last (logs_uncompressed_size doc)) as [Hlt|Hge];
    inversion H; subst; clear H.
  - eexists; split; [reflexivity|]. split; [lia|]. split; [lia|].
    split; [|split; [reflexivity | intros _; unfold benign; simpl; auto]].
    unfold frame, positive_reports; simpl. repeat split; auto.
    intros Hp. constructor; [simpl; split; [lia | reflexivity] | exact Hp].
  - eexists; split; [reflexivity|]. split; [lia|]. split; [lia|].
    split; [apply frame_refl | auto].
Qed.

(** ** Status handling *)

Lemma handle_done_post last doc st c st' :
  handle_done last doc st = (c, st') ->
  frame st st' /\ ticks st' = ticks st /\
  match c with
  | Normal ctl =>
      ctl = Break /\
      exists m, last_log (trace st') = Some m /\ terminal_report m = true
  | Raised e => st' = st /\ not_exit e
  | _ => False
  end.
Proof.
  unfold handle_done, getitem, sub_timestamps, py_div. unfold_monad.
  intros H. repeat case_match; simplify_eq; simpl;
    (split; [unfold frame, positive_reports; simpl; auto|]);
    (split; [reflexivity|]); eauto.
Qed.

Lemma handle_status_post id last doc st c st' :
  handle_status id last doc st = (c, st') ->
  frame st st' /\ ticks st' = ticks st /\
  match c with
  | Normal Continue => st' = st
  | Normal Break =>
      exists m, last_log (trace st') = Some m /\ terminal_report m = true
  | Returned code =>
      code = -1 /\ from_str (status doc) = None /\
      trace st' = Log ERROR (UnknownStatus (status doc) id) :: trace st
  | Raised e => st' = st /\ not_exit e
  | Blocked => False
  end.
Proof.
  unfold handle_status, JobStatus_from_str. unfold_monad.
  destruct (from_str (status doc)) as [js|] eqn:Hjs; simpl.
  - destruct js; simpl; intros H;
      try (inversion H; subst; simpl;
           (split; [unfold frame, positive_reports; simpl; auto|]);
           (split; [reflexivity|]); eauto; fail).
    apply handle_done_post in H as (Hf & Ht & Hc).
    split; [assumption|]. split; [assumption|].
    destruct c as [[|]| | |]; intuition (try discriminate; auto).
  - intros H; inversion H; subst; simpl.
    split; [unfold frame, positive_reports; simpl; auto|]. auto.
Qed.

(** ** Store calls *)

Lemma call_post {A} ev (op : gmap N JobDoc -> Completion A * gmap N JobDoc)
    st c st' :
  blocking ev op st = (c, st') ->
  store_call ev ->
  (forall s, exists a, (op s).1 = Normal a) ->
  frame st st' /\ last_log (trace st') = last_log (trace st) /\
  match c with
  | Normal _ => (length (ticks st') < length (ticks st))%nat
  | Raised e => e = KeyboardInterrupt
  | Blocked => ticks st' = []
  | Returned _ => False
  end.
Proof.
  intros H Hev Hop.
  assert (Hnb : forall s, (op s).1 <> Blocked).
  { intros s. destruct (Hop s) as [a ->]. discriminate. }
  destruct (blocking_frame _ _ _ _ _ H Hev Hnb) as (Hf & Hl & Hb & Hn).
  split; [assumption|]. split; [assumption|].
  apply blocking_post in H as (_ & _ & [(-> & _ & Ht) | (t & _ & Hc)]);
    [assumption|].
  destruct Hc as [-> | (s & ->)]; [reflexivity|].
  destruct (Hop s) as [a Ha]. rewrite Ha. apply Hn. rewrite Ha. discriminate.
Qed.

Lemma sleep_post st c st' :
  sleep st = (c, st') ->
  frame st st' /\ last_log (trace st') = last_log (trace st) /\
  match c with
  | Normal _ => (length (ticks st') < length (ticks st))%nat
  | Raised e => e = KeyboardInterrupt
  | Blocked => ticks st' = []
  | Returned _ => False
  end.
Proof.
  intros H. apply (call_post _ _ _ _ _ H); [exact I|].
  intros s. eexists. reflexivity.
Qed.

Lemma find_one_post id p st c st' :
  find_one id p st = (c, st') ->
  frame st st' /\ last_log (trace st') = last_log (trace st) /\
  match c with
  | Normal _ => (length (ticks st') < length (ticks st))%nat
  | Raised e => e = KeyboardInterrupt
  | Blocked => ticks st' = []
  | Returned _ => False
  end.
Proof.
  intros H. apply (call_post _ _ _ _ _ H); [exact I|].
  intros s. eexists. reflexivity.
Qed.

Lemma request_cancellation_post id st c st' :
  request_cancellation id st = (c, st') ->
  frame st st' /\ last_log (trace st') = last_log (trace st) /\
  match c with
  | Normal _ => (length (ticks st') < length (ticks st))%nat
  | Raised e => e = KeyboardInterrupt
  | Blocked => ticks st' = []
  | Returned _ => False
  end.
Proof.
  intros H. apply (call_post _ _ _ _ _ H); [exact I|].
  intros s. unfold find_one_and_update_op.
  destruct (s !! id) as [d|]; [destruct (String.eqb _ _)|]; eexists; reflexivity.
Qed.

Lemma benign_same_log tr tr' :
  last_log tr' = last_log tr -> benign tr -> benign tr'.
Proof. unfold benign. intros ->. auto. Qed.

(** ** The polling loop *)

Lemma monitor_iteration_post id last st c st' :
  0 <= last ->
  benign (trace st) ->
  monitor_iteration id last st = (c, st') ->
  frame st st' /\
  match c with
  | Normal (Continue, last') =>
      0 <= last' /\ benign (trace st') /\
      (length (ticks st') < length (ticks st))%nat
  | Normal (Break, _) =>
      exists m, last_log (trace st') = Some m /\ terminal_report m = true
  | Returned code =>
      code = -1 /\
      exists m, last_log (trace st') = Some m /\ fatal_report m = true
  | Raised e => benign (trace st') /\ not_exit e
  | Blocked => benign (trace st') /\ ticks st' = []
  end.
Proof.
  intros Hlast Hb H. unfold monitor_iteration in H.
  rewrite bind_run in H.
  destruct (sleep st) as [c1 st1] eqn:Hs.
  apply sleep_post in Hs as (Hf1 & Hl1 & Hc1).
  pose proof (benign_same_log _ _ Hl1 Hb) as Hb1.
  destruct c1 as [[]|?|e1|]; try contradiction;
    try (inversion H; subst; split; [assumption|]; simpl; auto; fail).
  rewrite bind_run in H.
  destruct (find_one id MonitorFields st1) as [c2 st2] eqn:Hfo.
  apply find_one_post in Hfo as (Hf2 & Hl2 & Hc2).
  pose proof (benign_same_log _ _ Hl2 Hb1) as Hb2.
  pose proof (frame_trans _ _ _ Hf1 Hf2) as Hf12.
  destruct c2 as [[doc|]|?|e2|]; try contradiction;
    try (inversion H; subst; split; [assumption|]; simpl; auto; fail).
  - rewrite bind_run in H.
    destruct (report_progress last doc st2) as [c3 st3] eqn:Hrp.
    apply report_progress_post in Hrp as (last' & -> & Hl' & _ & Hf3 & Ht3 & Hb3);
      [|assumption].
    specialize (Hb3 Hb2).
    rewrite bind_run in H.
    destruct (handle_status id last' doc st3) as [c4 st4] eqn:Hhs.
    apply handle_status_post in Hhs as (Hf4 & Ht4 & Hc4).
    pose proof (frame_trans _ _ _ Hf12 (frame_trans _ _ _ Hf3 Hf4)) as Hf.
    destruct c4 as [[|]|code|e4|]; try contradiction;
      unfold_monad; inversion H; subst; (split; [assumption|]).
    + split; [assumption|]. split; [assumption|]. rewrite Ht3. lia.
    + assumption.
    + destruct Hc4 as (-> & _ & Htr). split; [reflexivity|].
      rewrite Htr. simpl. eauto.
    + destruct Hc4 as (-> & He). auto.
  - unfold_monad. inversion H; subst. split.
    + destruct Hf12 as (? & ? & ? & ?).
      unfold frame, positive_reports in *; simpl; auto.
    + simpl. eauto.
Qed.

Lemma monitor_loop_post fuel : forall id last st c st',
  0 <= last ->
  benign (trace st) ->
  monitor_loop fuel id last st = (c, st') ->
  frame st st' /\ loop_post c (trace st') /\
  (c = Blocked -> (length (ticks st) < fuel)%nat -> ticks st' = []).
Proof.
  induction fuel as [|fuel IH]; intros id last st c st' Hlast Hb H; simpl in H.
  { unfold out_of_fuel in H. inversion H; subst.
    split; [apply frame_refl|]. split; [exact Hb|]. intros _ Hlt. lia. }
  rewrite bind_run in H.
  destruct (monitor_iteration id last st) as [c1 st1] eqn:Hit.
  apply monitor_iteration_post in Hit as (Hf1 & Hc1); [|assumption..].
  destruct c1 as [[[|] last']|code|e|].
  - destruct Hc1 as (Hl' & Hb1 & Hlen).
    apply IH in H as (Hf2 & Hp & Hfuel); [|assumption..].
    split; [eapply frame_trans; eassumption|]. split; [assumption|].
    intros Hc Hlt. apply Hfuel; [assumption | lia].
  - unfold_monad. inversion H; subst.
    split; [assumption|]. split; [exact Hc1 | discriminate].
  - inversion H; subst. split; [assumption|]. split; [exact Hc1 | discriminate].
  - inversion H; subst. split; [assumption|]. split; [exact Hc1 | discriminate].
  - inversion H; subst. destruct Hc1 as (Hb1 & Ht).
    split; [assumption|]. split; [exact Hb1 | auto].
Qed.

(** ** The interrupt handler *)

Lemma cancel_wait_loop_post fuel : forall id st c st',
  cancel_wait_loop fuel id st = (c, st') ->
  frame st st' /\
  match c with
  | Normal _ => last_log (trace st') = Some CancelledJobs
  | Returned code =>
      code = -1 /\ last_log (trace st') = Some JobDisappeared
  | Raised e =>
      last_log (trace st') = last_log (trace st) /\
      error_lines (trace st') = error_lines (trace st) /\ not_exit e
  | Blocked => last_log (trace st') = last_log (trace st)
  end /\
  (c = Blocked -> (length (ticks st) < fuel)%nat -> ticks st' = []).
Proof.
  induction fuel as [|fuel IH]; intros id st c st' H; simpl in H.
  { unfold out_of_fuel in H. inversion H; subst.
    split; [apply frame_refl|]. split; [reflexivity|]. intros _ Hlt. lia. }
  rewrite bind_run in H.
  destruct (sleep st) as [c1 st1] eqn:Hs.
  pose proof Hs as Hs'. apply blocking_post in Hs' as (Htr1 & _ & _).
  apply sleep_post in Hs as (Hf1 & Hl1 & Hc1).
  assert (He1 : error_lines (trace st1) = error_lines (trace st))
    by (rewrite Htr1; reflexivity).
  destruct c1 as [[]|?|e1|]; try contradiction;
    try (inversion H; subst; split; [assumption|]; simpl; auto; fail).
  rewrite bind_run in H.
  destruct (find_one id StatusOnly st1) as [c2 st2] eqn:Hfo.
  pose proof Hfo as Hfo'. apply blocking_post in Hfo' as (Htr2 & _ & _).
  apply find_one_post in Hfo as (Hf2 & Hl2 & Hc2).
  assert (He2 : error_lines (trace st2) = error_lines (trace st))
    by (rewrite Htr2; simpl; exact He1).
  pose proof (frame_trans _ _ _ Hf1 Hf2) as Hf12.
  assert (Hl12 : last_log (trace st2) = last_log (trace st)) by congruence.
  destruct c2 as [[doc|]|?|e2|]; try contradiction;
    try (inversion H; subst; split; [assumption|]; simpl; auto; fail).
  - rewrite bind_run in H. unfold JobStatus_from_str in H.
    destruct (from_str (status doc)) as [js|]; unfold_monad.
    + match goal with
      | |- ?G =>
          assert (Hbreak :
            (Normal tt, emit (Log INFO CancelledJobs) st2) = (c, st') -> G);
          [ intros Hbr | destruct js; simpl in H; try (apply Hbreak; exact H) ]
      end.
      { inversion Hbr; subst. split.
        { destruct Hf12 as (? & ? & ? & ?).
          unfold frame, positive_reports in *; simpl; auto. }
        split; [reflexivity | discriminate]. }
      all: apply IH in H as (Hf3 & Hc3 & Hfuel);
        (split; [eapply frame_trans; eassumption|]); split;
        [ destruct c; auto;
          [ destruct Hc3 as (? & ? & ?); repeat split; congruence
          | congruence ]
        | intros Hc Hlt; apply Hfuel; [assumption | lia] ].
    + inversion H; subst. split; [assumption|]. split; [|discriminate].
      simpl. auto.
  - unfold_monad. inversion H; subst. split.
    + destruct Hf12 as (? & ? & ? & ?).
      unfold frame, positive_reports in *; simpl; auto.
    + simpl. split; [auto | discriminate].
  - inversion H; subst. subst. split; [assumption|].
    split; [simpl; auto | discriminate].
- inversion H; subst. subst. split; [assumption|].
    split; [simpl; auto | discriminate].
Qed.

Lemma on_keyboard_interrupt_post fuel st c st' :
  on_keyboard_interrupt fuel st = (c, st') ->
  frame st st' /\
  match c with
  | Normal _ =>
      exists m, last_log (trace st') = Some m /\ fatal_report m = false
  | Returned code =>
      code = -1 /\
      exists m, last_log (trace st') = Some m /\ fatal_report m = true
  | Raised e => benign (trace st') /\ not_exit e
  | Blocked => benign (trace st')
  end /\
  (c = Blocked -> (length (ticks st) < fuel)%nat -> ticks st' = []).
Proof.
  unfold on_keyboard_interrupt. intros H.
  rewrite bind_run in H. unfold log at 1 in H.
  rewrite bind_run in H. unfold get_job_id in H. simpl in H.
  set (st0 := emit (Log INFO TryingToCancel) st) in *.
  assert (Hf0 : frame st st0)
    by (unfold frame, positive_reports; simpl; auto).
  assert (Hb0 : benign (trace st0)) by (unfold benign; simpl; auto).
  destruct (job_id st) as [id|].
  - rewrite bind_run in H.
    destruct (request_cancellation id st0) as [c1 st1] eqn:Hrc.
    apply request_cancellation_post in Hrc as (Hf1 & Hl1 & Hc1).
    pose proof (benign_same_log _ _ Hl1 Hb0) as Hb1.
    pose proof (frame_trans _ _ _ Hf0 Hf1) as Hf01.
    destruct c1 as [[d|]|?|e1|]; try contradiction.
    + apply cancel_wait_loop_post in H as (Hf2 & Hc2 & Hfuel).
      split; [eapply frame_trans; eassumption|]. split.
      * destruct c as [[]|code|e|].
        -- rewrite Hc2. eauto.
        -- destruct Hc2 as (-> & ->). eauto.
        -- destruct Hc2 as (Hl2 & _ & He). split; [|assumption].
           eapply benign_same_log; eassumption.
        -- eapply benign_same_log; eassumption.
      * intros Hc Hlt. apply Hfuel; [assumption|].
        simpl in Hc1. unfold st0 in Hc1. simpl in Hc1. lia.
    + unfold_monad. inversion H; subst. split.
      * destruct Hf01 as (? & ? & ? & ?).
        unfold frame, positive_reports in *; simpl; auto.
      * split; [simpl; eauto | discriminate].
    + inversion H; subst. split; [assumption|].
      split; [simpl; auto | discriminate].
    + inversion H; subst. split; [assumption|]. split; [assumption | auto].
  - unfold_monad. inversion H; subst. split; [assumption|].
    split; [simpl; eauto | discriminate].
Qed.

(** ** Submission *)

Lemma terminal_not_fatal m : terminal_report m = true -> fatal_report m = false.
Proof. destruct m; simpl; congruence. Qed.

Lemma insert_one_post id entry st c st' :
  insert_one id entry st = (c, st') ->
  trace st' = InsertOne entry :: trace st /\ job_id st' = job_id st /\
  (length (ticks st') <= length (ticks st))%nat /\
  match c with
  | Normal id' => id' = id /\ (length (ticks st') < length (ticks st))%nat
  | Raised e => e = KeyboardInterrupt \/ e = DuplicateKeyError
  | Blocked => ticks st' = []
  | Returned _ => False
  end.
Proof.
  intros H. apply blocking_post in H as (Htr & Hid & Hc).
  split; [assumption|]. split; [assumption|].
  split.
  { destruct Hc as [(_ & -> & ->) | (t & -> & _)]; simpl; lia. }
  destruct Hc as [(-> & _ & Ht) | (t & Ht & [-> | (s & ->)])]; auto.
  unfold insert_one_op. destruct (s !! id); simpl; auto.
  split; [reflexivity|]. rewrite Ht. simpl. lia.
Qed.

Lemma submit_and_monitor_post fuel env entry st c st' :
  benign (trace st) ->
  submit_and_monitor fuel env entry st = (c, st') ->
  inserts (trace st') = entry :: inserts (trace st) /\
  (positive_reports (trace st) -> positive_reports (trace st')) /\
  (length (ticks st') <= length (ticks st))%nat /\
  loop_post c (trace st') /\
  (c = Blocked -> (length (ticks st) < fuel)%nat -> ticks st' = []).
Proof.
  intros Hb H. unfold submit_and_monitor in H.
  rewrite bind_run in H.
  destruct (insert_one (fresh_id env) entry st) as [c1 st1] eqn:Hins.
  apply insert_one_post in Hins as (Htr1 & _ & Hle1 & Hc1).
  assert (Hb1 : benign (trace st1)) by (rewrite Htr1; exact Hb).
  assert (Hi1 : inserts (trace st1) = entry :: inserts (trace st))
    by (rewrite Htr1; reflexivity).
  assert (Hp1 : positive_reports (trace st) -> positive_reports (trace st1))
    by (unfold positive_reports; rewrite Htr1; simpl; auto).
  destruct c1 as [id|?|e|]; try contradiction.
  - destruct Hc1 as (-> & Hlen).
    unfold_monad. simpl in H.
    match type of H with
    | monitor_loop _ _ _ ?s = _ => set (st2 := s) in *
    end.
    apply monitor_loop_post in H as (Hf & Hp & Hfuel);
      [| lia | unfold benign; simpl; auto].
    destruct Hf as (Hi & Hpos & Hle2 & _).
    split; [rewrite Hi; exact Hi1|].
    split; [intros Hp0; apply Hpos; exact (Hp1 Hp0)|].
    split; [simpl in Hle2; lia|].
    split; [assumption|].
    intros Hc Hlt. apply Hfuel; [assumption | simpl; lia].
  - inversion H; subst. split; [assumption|]. split; [assumption|].
    split; [assumption|].
    split; [|discriminate]. simpl. split; [assumption|].
    destruct Hc1 as [-> | ->]; exact I.
  - inversion H; subst. split; [assumption|]. split; [assumption|].
    split; [assumption|].
    split; [exact Hb1 | auto].
Qed.

Lemma run_job_post fuel env entry st c st' :
  benign (trace st) ->
  run_job fuel env entry st = (c, st') ->
  inserts (trace st') = entry :: inserts (trace st) /\
  (positive_reports (trace st) -> positive_reports (trace st')) /\
  main_post c (trace st') /\
  (c = Blocked -> (length (ticks st) < fuel)%nat -> ticks st' = []).
Proof.
  intros Hb H. unfold run_job in H.
  rewrite bind_run in H. unfold set_job_id at 1 in H.
  rewrite bind_run in H. unfold try_except in H.
  match type of H with
  | context [submit_and_monitor fuel env entry ?s] => set (st0 := s) in *
  end.
  destruct (submit_and_monitor fuel env entry st0) as [c1 st1] eqn:Hsm.
  apply submit_and_monitor_post in Hsm as (Hi1 & Hp1 & Hle1 & Hc1 & Hfuel1);
    [|exact Hb].
  simpl in Hi1, Hp1, Hle1, Hfuel1.
  destruct c1 as [[]|code|e|].
  - unfold_monad. inversion H; subst.
    split; [assumption|]. split; [assumption|]. split; [|discriminate].
    destruct Hc1 as (m & Hm & Ht). left. split; [reflexivity|].
    exists m. split; [assumption | apply terminal_not_fatal; assumption].
  - inversion H; subst. split; [assumption|]. split; [assumption|].
    split; [|discriminate]. right. exact Hc1.
  - destruct Hc1 as (Hb1 & He).
    destruct (is_KeyboardInterrupt e) eqn:Hk.
    + destruct (on_keyboard_interrupt fuel st1) as [c2 st2] eqn:Hh.
      apply on_keyboard_interrupt_post in Hh as (Hf & Hc2 & Hfuel2).
      destruct Hf as (Hi2 & Hp2 & Hlen & _).
      unfold_monad.
      destruct c2 as [[]|code|e2|]; inversion H; subst;
        (split; [congruence|]); (split; [auto|]).
      * split; [left; auto | discriminate].
      * split; [right; exact Hc2 | discriminate].
      * split; [|discriminate]. destruct Hc2; split; auto.
      * split; [exact Hc2|]. intros _ Hlt. apply Hfuel2; [reflexivity | lia].
    + inversion H; subst. split; [assumption|]. split; [assumption|].
      split; [|discriminate]. simpl. auto.
  - inversion H; subst. split; [assumption|]. split; [assumption|].
    split; [exact Hc1 | exact Hfuel1].
Qed.

(** ** Arguments and the job document *)

Lemma target_size_attributes_eq :
  target_size_attributes =
  [ "target_archive_size"; "target_archive_dictionaries_data_size";
    "target_segment_size"; "target_encoded_file_size";
    "target_num_archives" ].
Proof. reflexivity. Qed.

Lemma getattr_run args attr st :
  In attr target_size_attributes ->
  getattr args attr st = (Normal (supplied args attr), st).
Proof.
  rewrite target_size_attributes_eq. simpl.
  intros [<- | [<- | [<- | [<- | [<- | []]]]]]; reflexivity.
Qed.

Lemma supplied_outside args attr :
  ~ In attr target_size_attributes -> supplied args attr = None.
Proof.
  rewrite target_size_attributes_eq. simpl. intros Hn. unfold supplied.
  repeat match goal with
         | |- context [String.eqb attr ?k] =>
             destruct (String.eqb_spec attr k) as [->|?]
         end; try reflexivity; exfalso; apply Hn; auto 10.
Qed.

Lemma valid_supplied args attr :
  valid_args args -> positive_or_absent (supplied args attr).
Proof.
  intros (_ & H1 & H2 & H3 & H4 & H5). unfold supplied.
  repeat match goal with
         | |- context [String.eqb attr ?k] => destruct (String.eqb attr k)
         end; first [assumption | exact I].
Qed.

Lemma check_target_size_post args opt attr st c st' :
  In attr target_size_attributes ->
  check_target_size args opt attr st = (c, st') ->
  check_post c st st' /\
  (positive_or_absent (supplied args attr) -> c = Normal tt).
Proof.
  intros Hin. unfold check_target_size. rewrite bind_run.
  rewrite getattr_run by assumption. unfold check_post, positive_or_absent.
  destruct (supplied args attr) as [v|].
  - destruct (Z.leb_spec v 0) as [Hle|Hgt]; intros Hrun; inversion Hrun; subst.
    + split; [right; eauto | lia].
    + auto.
  - intros Hrun; inversion Hrun; auto.
Qed.

Lemma for_each_check {A} (body : A -> M unit) (ok : A -> Prop) (l : list A) :
  (forall x st c st', In x l -> body x st = (c, st') ->
     check_post c st st' /\ (ok x -> c = Normal tt)) ->
  forall st c st', for_each l body st = (c, st') ->
    check_post c st st' /\ ((forall x, In x l -> ok x) -> c = Normal tt).
Proof.
  induction l as [|x l IH]; intros Hbody st c st' H; simpl in H.
  { inversion H; subst. unfold check_post; auto. }
  rewrite bind_run in H.
  destruct (body x st) as [c1 st1] eqn:Hx.
  apply Hbody in Hx as (Hc1 & Hok1); [|left; reflexivity].
  destruct Hc1 as [(-> & ->) | (-> & msg & ->)].
  - apply IH in H as (Hc & Hok); [|intros; apply Hbody; [right|]; assumption].
    split; [assumption|]. intros Hall. apply Hok. intros; apply Hall; right;
      assumption.
  - inversion H; subst. split; [right; eauto|].
    intros Hall. apply Hok1. apply Hall. left; reflexivity.
Qed.

Lemma validate_args_post args st c st' :
  validate_args args st = (c, st') ->
  check_post c st st' /\ (valid_args args -> c = Normal tt).
Proof.
  unfold validate_args. intros H.
  assert (Hloop : forall st c st',
    for_each (combine target_size_options target_size_attributes)
      (fun '(opt, attr) => check_target_size args opt attr) st = (c, st') ->
    check_post c st st' /\ (valid_args args -> c = Normal tt)).
  { clear H. intros st1 c1 st1' Hfe.
    apply (for_each_check _
             (fun x => positive_or_absent (supplied args x.2))) in Hfe.
    - destruct Hfe as (Hc & Hok). split; [assumption|].
      intros Hv. apply Hok. intros x _. apply valid_supplied. assumption.
    - intros [opt attr] st0 c0 st0' Hin Hrun.
      apply in_combine_r in Hin.
      apply (check_target_size_post _ _ _ _ _ _ Hin Hrun). }
  rewrite bind_run in H.
  destruct (bool_decide (Args.input_list args = None)
            && (0 =? Z.of_nat (length (Args.paths args)))) eqn:Hfirst.
  { unfold parser_error in H. inversion H; subst.
    split; [right; eauto|]. intros (Hsrc & _). exfalso.
    apply andb_true_iff in Hfirst as (Hn & Hp).
    apply bool_decide_eq_true_1 in Hn.
    destruct (Args.paths args); [|discriminate].
    apply (proj1 Hsrc Hn). reflexivity. }
  unfold mret at 1, M_ret at 1 in H.
  rewrite bind_run in H.
  destruct ((Z.of_nat (length (Args.paths args)) >? 0)
            && negb (bool_decide (Args.input_list args = None))) eqn:Hsecond.
  { unfold parser_error in H. inversion H; subst.
    split; [right; eauto|]. intros (Hsrc & _). exfalso.
    apply andb_true_iff in Hsecond as (Hp & Hn).
    apply negb_true_iff, bool_decide_eq_false_1 in Hn. apply Hn, Hsrc.
    destruct (Args.paths args); [discriminate Hp | discriminate]. }
  unfold mret at 1, M_ret at 1 in H.
  apply Hloop in H. exact H.
Qed.

Lemma validate_args_valid args st :
  valid_args args -> validate_args args st = (Normal tt, st).
Proof.
  intros Hv. destruct (validate_args args st) as [c st'] eqn:H.
  apply validate_args_post in H as (Hc & Hok).
  specialize (Hok Hv). subst c.
  destruct Hc as [(_ & ->) | (Hc & _)]; [reflexivity | discriminate].
Qed.

Lemma for_fold_output_config args (l : list string) :
  (forall attr, attr ∈ l -> In attr target_size_attributes) ->
  forall (oc : gmap string Z) st,
  exists oc',
    for_fold l (add_target_size args) oc st = (Normal oc', st) /\
    forall attr,
      oc' !! attr =
      if bool_decide (attr ∈ l)
      then match supplied args attr with
           | Some v => Some v
           | None => oc !! attr
           end
      else oc !! attr.
Proof.
  induction l as [|a l IH]; intros Hl oc st; cbn [for_fold].
  { exists oc. split; [reflexivity|]. intros attr.
    rewrite bool_decide_eq_false_2 by apply not_elem_of_nil. reflexivity. }
  rewrite bind_run. unfold add_target_size at 1. rewrite bind_run.
  rewrite getattr_run by (apply Hl, elem_of_cons; left; reflexivity).
  assert (Hl' : forall attr, attr ∈ l -> In attr target_size_attributes)
    by (intros; apply Hl, elem_of_cons; right; assumption).
  destruct (supplied args a) as [v|] eqn:Ha.
  - destruct (IH Hl' (<[a := v]> oc) st) as (oc' & Hrun & Hlook).
    exists oc'. split; [exact Hrun|]. intros attr. rewrite Hlook.
    destruct (decide (a = attr)) as [->|Hne].
    + rewrite lookup_insert_eq, Ha.
      rewrite (bool_decide_eq_true_2 (attr ∈ attr :: l))
        by (apply elem_of_cons; left; reflexivity).
      destruct (bool_decide (attr ∈ l)); reflexivity.
    + rewrite lookup_insert_ne by assumption.
      destruct (bool_decide_reflect (attr ∈ l)) as [Hin|Hnin].
      * rewrite bool_decide_eq_true_2
          by (apply elem_of_cons; right; assumption).
        reflexivity.
      * rewrite bool_decide_eq_false_2
          by (apply not_elem_of_cons; split; [congruence | assumption]).
        reflexivity.
  - destruct (IH Hl' oc st) as (oc' & Hrun & Hlook).
    exists oc'. split; [exact Hrun|]. intros attr. rewrite Hlook.
    destruct (decide (a = attr)) as [->|Hne].
    + rewrite Ha.
      rewrite (bool_decide_eq_true_2 (attr ∈ attr :: l))
        by (apply elem_of_cons; left; reflexivity).
      destruct (bool_decide (attr ∈ l)); reflexivity.
    + destruct (bool_decide_reflect (attr ∈ l)) as [Hin|Hnin].
      * rewrite bool_decide_eq_true_2
          by (apply elem_of_cons; right; assumption).
        reflexivity.
      * rewrite bool_decide_eq_false_2
          by (apply not_elem_of_cons; split; [congruence | assumption]).
        reflexivity.
Qed.

Lemma make_output_config_run args st :
  exists oc,
    make_output_config args st = (Normal oc, st) /\
    forall attr, oc !! attr = supplied args attr.
Proof.
  unfold make_output_config.
  destruct (for_fold_output_config args target_size_attributes
              (fun _ H => proj1 (list_elem_of_In _ _) H) ∅ st)
    as (oc & Hrun & Hlook).
  exists oc. split; [exact Hrun|]. intros attr. rewrite Hlook.
  rewrite lookup_empty.
  destruct (bool_decide_reflect (attr ∈ target_size_attributes)) as [Hin|Hn].
  - destruct (supplied args attr); reflexivity.
  - symmetry. apply supplied_outside. rewrite <- list_elem_of_In. assumption.
Qed.

(** ** Whole runs *)

Lemma main_fuel_post fuel args env st c st' :
  benign (trace st) ->
  main_fuel fuel args env st = (c, st') ->
  main_post c (trace st') /\
  (positive_reports (trace st) -> positive_reports (trace st')) /\
  (c = Blocked -> (length (ticks st) < fuel)%nat -> ticks st' = []) /\
  (valid_args args -> config_uri env <> None ->
   exists oc,
     (forall attr, oc !! attr = supplied args attr) /\
     inserts (trace st') =
       make_entry args env (collect_input_paths args env) oc
         :: inserts (trace st)).
Proof.
  intros Hb H. unfold main_fuel in H. rewrite bind_run in H.
  destruct (validate_args args st) as [c1 st1] eqn:Hv.
  apply validate_args_post in Hv as (Hc1 & Hok).
  destruct Hc1 as [(-> & ->) | (-> & msg & ->)].
  2:{ inversion H; subst. split; [simpl; auto|].
      split; [unfold positive_reports; simpl; auto|].
      split; [discriminate|]. intros Hva _. specialize (Hok Hva).
      discriminate. }
  clear Hok. rewrite bind_run in H. unfold load_config in H.
  destruct (config_uri env) as [uri|] eqn:Hcfg.
  2:{ unfold_monad. inversion H; subst. split; [right; simpl; eauto|].
      split; [unfold positive_reports; simpl; auto|].
      split; [discriminate|]. intros _ Hne. contradiction. }
  unfold mret at 1, M_ret at 1 in H.
  rewrite bind_run in H.
  destruct (make_output_config_run args st) as (oc & Hoc & Hlook).
  rewrite Hoc in H.
  apply run_job_post in H as (Hi & Hp & Hm & Hfuel); [|assumption].
  split; [assumption|]. split; [assumption|]. split; [assumption|].
  intros _ _. exists oc. auto.
Qed.

(** A run that is still blocked has used up the script: the fuel that
    [main] hands to its loops never runs out first. *)
Lemma main_blocked_on_empty_script args env s script st' :
  main args env (initial s script) = (Blocked, st') -> ticks st' = [].
Proof.
  unfold main. intros H.
  apply main_fuel_post in H as (_ & _ & Hfuel & _); [|exact I].
  apply Hfuel; [reflexivity | simpl; lia].
Qed.

(** ** Iterations of the polling loop *)

Lemma monitor_iteration_found id last st t1 t2 rest doc :
  ticks st = t1 :: t2 :: rest ->
  interrupt t1 = Quiet -> interrupt t2 = Quiet ->
  worker t2 (worker t1 (store st)) !! id = Some doc ->
  monitor_iteration id last st =
  (last' ← report_progress last doc;
   ctl ← handle_status id last' doc;
   mret (ctl, last')) (polled id t1 t2 rest st).
Proof.
  intros Ht H1 H2 Hdoc. unfold monitor_iteration.
  rewrite bind_run. unfold sleep.
  rewrite (blocking_quiet _ _ _ _ _ Ht H1). simpl.
  rewrite bind_run. unfold find_one.
  rewrite (blocking_quiet _ _ (after_call _ _ _ _) t2 rest eq_refl H2).
  simpl. rewrite Hdoc. reflexivity.
Qed.

Lemma monitor_iteration_last id last st ctl last' st' :
  0 <= last ->
  monitor_iteration id last st = (Normal (ctl, last'), st') ->
  0 <= last'.
Proof.
  intros Hlast H. unfold monitor_iteration in H.
  rewrite bind_run in H. destruct (sleep st) as [[[]| | |] st1]; try discriminate.
  rewrite bind_run in H.
  destruct (find_one id MonitorFields st1) as [[[doc|]| | |] st2];
    try discriminate.
  rewrite bind_run in H.
  destruct (report_progress last doc st2) as [c3 st3] eqn:Hrp.
  apply report_progress_post in Hrp as (l & -> & Hl & _); [|assumption].
  rewrite bind_run in H.
  destruct (handle_status id l doc st3) as [[ctl'| | |] st4]; try discriminate.
  unfold_monad. inversion H; subst. assumption.
Qed.

Lemma loop_head_nonneg id st0 last st : loop_head id st0 last st -> 0 <= last.
Proof.
  induction 1 as [|last st last' st' _ IH Hit]; [lia|].
  eapply monitor_iteration_last; eassumption.
Qed.




Lemma handle_status_done id last doc st :
  from_str (status doc) = Some DONE ->
  handle_status id last doc st = handle_done last doc st.
Proof.
  intros Hjs. unfold handle_status, JobStatus_from_str. unfold_monad.
  rewrite Hjs. reflexivity.
Qed.

(** C5. When a polled document has status DONE, the runtime reported is
    end_timestamp - begin_timestamp in seconds (the difference over 1000
    for millisecond integers, the total seconds of the timedelta for
    datetimes) and the speed reported is the uncompressed size, the
    largest the loop has seen, over that runtime. *)
Theorem done_reports_runtime_and_speed
    (id : N) (st0 : State) (last : Z) (st : State) (t1 t2 : Tick)
    (rest : list Tick) (doc : JobDoc) (e b : Timestamp) (delta : Delta) :
  loop_head id st0 last st ->
  ticks st = t1 :: t2 :: rest ->
  interrupt t1 = Quiet -> interrupt t2 = Quiet ->
  worker t2 (worker t1 (store st)) !! id = Some doc ->
  from_str (status doc) = Some DONE ->
  end_timestamp doc = Some e ->
  begin_timestamp doc = Some b ->
  (exists e' b', e = Millis e' /\ b = Millis b' /\ delta = IntDelta (e' - b')) \/
  (exists e' b',
     e = Datetime e' /\ b = Datetime b' /\ delta = Timedelta (e' - b')) ->
  delta_value delta <> 0 ->
  exists runtime total st',
    runtime =
      match delta with
      | IntDelta ms => (inject_Z ms / inject_Z 1000)%Q
      | Timedelta us => (inject_Z us / inject_Z 1000000)%Q
      end /\
    total = Z.max last (logs_uncompressed_size doc) /\
    monitor_iteration id last st = (Normal (Break, total), st') /\
    finished_reports (trace st') =
      (runtime, (inject_Z total / runtime)%Q) :: finished_reports (trace st).
Proof.
  intros Hhead Ht H1 H2 Hdoc Hjs He Hb Henc Hnz.
  apply loop_head_nonneg in Hhead.
  exists (runtime_seconds delta), (Z.max last (logs_uncompressed_size doc)).
  rewrite (monitor_iteration_found _ _ _ _ _ _ _ Ht H1 H2 Hdoc).
  rewrite bind_run, report_progress_run by assumption.
  assert (Hrun : forall total s,
    finished_reports (trace s) = finished_reports (trace st) ->
    exists st',
      (ctl ← handle_status id total doc; mret (ctl, total)) s
        = (Normal (Break, total), st') /\
      finished_reports (trace st') =
        (runtime_seconds delta, (inject_Z total / runtime_seconds delta)%Q)
          :: finished_reports (trace st)).
  { intros total s Hs. rewrite bind_run, handle_status_done by assumption.
    assert (Hsub : sub_timestamps e b s = (Normal delta, s)).
    { destruct Henc as [(e' & b' & -> & -> & ->) | (e' & b' & -> & -> & ->)];
        reflexivity. }
    assert (Hz : Qeq_bool (runtime_seconds delta) 0 = false).
    { destruct (Qeq_bool (runtime_seconds delta) 0) eqn:Hz; [|reflexivity].
      apply runtime_zero in Hz. contradiction. }
    unfold handle_done. rewrite He, Hb. unfold getitem, py_div.
    unfold mbind, M_bind, mret, M_ret, log. rewrite Hsub, Hz.
    destruct (errors doc); eexists; (split; [reflexivity|]);
      simpl; rewrite Hs; reflexivity. }
  destruct (Z.ltb_spec last (logs_uncompressed_size doc)) as [Hlt|Hge].
  - rewrite Z.max_r by lia.
    destruct (Hrun (logs_uncompressed_size doc)
                (emit (Log INFO (Progress (logs_uncompressed_size doc)
                   (logs_compressed_size doc)
                   (inject_Z (logs_compressed_size doc)
                    / inject_Z (logs_uncompressed_size doc) * 100)%Q))
                   (polled id t1 t2 rest st)) eq_refl) as (st' & Hr & Hf).
    exists st'. split; [destruct delta; reflexivity|]. auto.
  - rewrite Z.max_l by lia.
    destruct (Hrun last (polled id t1 t2 rest st) eq_refl) as (st' & Hr & Hf).
    exists st'. split; [destruct delta; reflexivity|]. auto.
Qed.

(** C8. The DONE branch has no guard for a zero runtime: for a DONE
    document the speed division raises ZeroDivisionError exactly when
    begin_timestamp and end_timestamp are present and equal. *)
Theorem done_divides_by_zero_iff_equal_timestamps
    (id : N) (last : Z) (doc : JobDoc) (st : State) :
  from_str (status doc) = Some DONE ->
  (handle_status id last doc st).1 = Raised ZeroDivisionError <->
  exists t, end_timestamp doc = Some t /\ begin_timestamp doc = Some t.
Proof.
  intros Hjs. rewrite handle_status_done by assumption.
  unfold handle_done, getitem, sub_timestamps, py_div. unfold_monad.
  destruct (end_timestamp doc) as [[e|e]|], (begin_timestamp doc) as [[b|b]|];
    simpl;
    try (split; [intros H; discriminate H
                | intros (t & H1 & H2); congruence]).
  - change (inject_Z (e - b) / inject_Z 1000)%Q
      with (runtime_seconds (IntDelta (e - b))).
    destruct (Qeq_bool (runtime_seconds (IntDelta (e - b))) 0) eqn:Hz.
    + apply runtime_zero in Hz. simpl in Hz.
      assert (b = e) as -> by lia.
      split; [intros _|reflexivity]. exists (Millis e). auto.
    + destruct (errors doc); simpl;
        (split; [intros H; discriminate H|]);
        intros (t & H1 & H2); exfalso;
        assert (delta_value (IntDelta (e - b)) = 0)
          by (simplify_eq; simpl; lia);
        apply runtime_zero in H; congruence.
  - change (inject_Z (e - b) / inject_Z 1000000)%Q
      with (runtime_seconds (Timedelta (e - b))).
    destruct (Qeq_bool (runtime_seconds (Timedelta (e - b))) 0) eqn:Hz.
    + apply runtime_zero in Hz. simpl in Hz.
      assert (b = e) as -> by lia.
      split; [intros _|reflexivity]. exists (Datetime e). auto.
    + destruct (errors doc); simpl;
        (split; [intros H; discriminate H|]);
        intros (t & H1 & H2); exfalso;
        assert (delta_value (Timedelta (e - b)) = 0)
          by (simplify_eq; simpl; lia);
        apply runtime_zero in H; congruence.
Qed.

(** C9. The last size seen is never negative at the top of the polling
    loop, so the progress report never divides by zero: it completes
    normally, and when it writes a report the divisor is positive. *)
Theorem progress_ratio_never_divides_by_zero
    (id : N) (st0 : State) (last : Z) (st : State) (doc : JobDoc)
    (st1 : State) :
  loop_head id st0 last st ->
  0 <= last /\
  exists last' st2,
    report_progress last doc st1 = (Normal last', st2) /\
    0 <= last' /\
    (progress_reports (trace st2) = progress_reports (trace st1) \/
     0 < logs_uncompressed_size doc /\
     progress_reports (trace st2) =
       (logs_uncompressed_size doc, logs_compressed_size doc,
        (inject_Z (logs_compressed_size doc)
         / inject_Z (logs_uncompressed_size doc) * 100)%Q)
         :: progress_reports (trace st1)).
Proof.
  intros Hhead. apply loop_head_nonneg in Hhead. split; [assumption|].
  rewrite report_progress_run by assumption.
  destruct (Z.ltb_spec last (logs_uncompressed_size doc)) as [Hlt|Hge];
    eexists _, _; (split; [reflexivity|]).
  - split; [lia|]. right. split; [lia | reflexivity].
  - split; [lia|]. left. reflexivity.
Qed.

(** Every progress report of every run of [main] divides by a positive
    size. *)
Corollary main_reports_positive args env s script :
  positive_reports (trace (main args env (initial s script)).2).
Proof.
  unfold main.
  destruct (main_fuel _ args env (initial s script)) as [c st'] eqn:H.
  apply main_fuel_post in H as (_ & Hp & _); [|exact I].
  apply Hp. constructor.
Qed.

(** ** Interruption *)

(** C2. When the client is interrupted after the job id is known and the
    conditional update matches no document, the handler logs that the job
    already started, makes no further store call and does not sleep, and
    [main] returns 0. *)
Theorem cancellation_too_late_returns_zero
    (fuel : nat) (env : Env) (entry : JobDoc) (st st1 : State) (id : N)
    (t : Tick) (rest : list Tick) :
  submit_and_monitor fuel env entry (set_job_id None st).2
    = (Raised KeyboardInterrupt, st1) ->
  job_id st1 = Some id ->
  ticks st1 = t :: rest ->
  interrupt t = Quiet ->
  (forall d, worker t (store st1) !! id = Some d ->
             status d <> JobStatus_str PENDING) ->
  exists st2,
    run_job fuel env entry st = (Returned 0, st2) /\
    exit_status (Returned 0) = Some 0 /\
    trace st2 =
      Log ERROR AlreadyStarted
        :: FindOneAndUpdate id (JobStatus_str PENDING)
             (JobStatus_str CANCELLING)
        :: Log INFO TryingToCancel :: trace st1 /\
    store st2 = worker t (store st1) /\
    ticks st2 = rest.
Proof.
  intros Hbody Hid Ht Hq Hno.
  unfold run_job. rewrite bind_run. simpl in Hbody |- *.
  rewrite bind_run. unfold try_except. rewrite Hbody. simpl.
  unfold on_keyboard_interrupt. rewrite bind_run. unfold log at 1.
  rewrite bind_run. unfold get_job_id. simpl. rewrite Hid.
  rewrite bind_run. unfold request_cancellation, find_one_and_update.
  rewrite (blocking_quiet _ _ (emit _ st1) t rest Ht Hq). simpl.
  unfold find_one_and_update_op.
  destruct (worker t (store st1) !! id) as [d|] eqn:Hd.
  - destruct (String.eqb_spec (status d) "pending") as [Heq|Hne].
    { exfalso. exact (Hno d eq_refl Heq). }
    eexists. split; [reflexivity|]. simpl. auto.
  - eexists. split; [reflexivity|]. simpl. auto.
Qed.

(** C10. When the interrupt arrives before [insert_one] has returned an
    id, the handler only logs that it tries to cancel: no conditional
    update, no sleep, no poll, and [main] returns 0. *)
Theorem interrupt_before_id_skips_cancellation
    (args : Args.t) (env : Env) (s : gmap N JobDoc) (t : Tick)
    (rest : list Tick) :
  valid_args args ->
  config_uri env <> None ->
  interrupt t = SigintBefore \/
  (interrupt t = SigintAfter /\ worker t s !! fresh_id env = None) ->
  exists entry st',
    main args env (initial s (t :: rest)) = (Returned 0, st') /\
    exit_status (Returned 0) = Some 0 /\
    trace st' = [Log INFO TryingToCancel; InsertOne entry] /\
    job_id st' = None /\
    ticks st' = rest /\
    (interrupt t = SigintBefore -> store st' = worker t s) /\
    (interrupt t = SigintAfter ->
     store st' = <[fresh_id env := entry]> (worker t s)).
Proof.
  intros Hv Hcfg Hint. unfold main, main_fuel.
  rewrite bind_run, validate_args_valid by assumption.
  rewrite bind_run. unfold load_config.
  destruct (config_uri env) as [uri|]; [|contradiction].
  unfold mret at 1, M_ret at 1. rewrite bind_run.
  destruct (make_output_config_run args (initial s (t :: rest)))
    as (oc & -> & _).
  exists (make_entry args env (collect_input_paths args env) oc).
  unfold run_job. rewrite bind_run. simpl.
  rewrite bind_run. unfold try_except, submit_and_monitor.
  rewrite bind_run. unfold insert_one, blocking. simpl.
  destruct Hint as [Hb | (Ha & Hfresh)].
  - rewrite Hb. simpl. eexists. split; [reflexivity|]. simpl.
    repeat split; auto. intros H; discriminate H.
  - rewrite Ha. unfold insert_one_op. rewrite Hfresh. simpl.
    eexists. split; [reflexivity|]. simpl.
    repeat split; auto. intros H; discriminate H.
Qed.

(** ** Unknown status strings *)

(** In the polling loop an unknown status is reported once, at level
    ERROR, and [main] returns -1. *)
Lemma monitor_unknown_status id last st t1 t2 rest doc :
  0 <= last ->
  ticks st = t1 :: t2 :: rest ->
  interrupt t1 = Quiet -> interrupt t2 = Quiet ->
  worker t2 (worker t1 (store st)) !! id = Some doc ->
  from_str (status doc) = None ->
  exists st',
    monitor_iteration id last st = (Returned (-1), st') /\
    error_lines (trace st') =
      UnknownStatus (status doc) id :: error_lines (trace st).
Proof.
  intros Hlast Ht H1 H2 Hdoc Hjs.
  rewrite (monitor_iteration_found _ _ _ _ _ _ _ Ht H1 H2 Hdoc).
  rewrite bind_run, report_progress_run by assumption.
  unfold handle_status, JobStatus_from_str. unfold_monad. rewrite Hjs.
  destruct (last <? logs_uncompressed_size doc);
    eexists; split; reflexivity.
Qed.

(** In the loop that waits for the cancellation the same status escapes
    as a [KeyError]: nothing is logged and [main] does not return. *)
Lemma cancel_wait_unknown_status fuel id st t1 t2 rest doc :
  ticks st = t1 :: t2 :: rest ->
  interrupt t1 = Quiet -> interrupt t2 = Quiet ->
  worker t2 (worker t1 (store st)) !! id = Some doc ->
  from_str (status doc) = None ->
  exists st',
    cancel_wait_loop (S fuel) id st = (Raised (KeyError (status doc)), st') /\
    error_lines (trace st') = error_lines (trace st) /\
    last_log (trace st') = last_log (trace st).
Proof.
  intros Ht H1 H2 Hdoc Hjs. simpl.
  rewrite bind_run. unfold sleep.
  rewrite (blocking_quiet _ _ _ _ _ Ht H1). simpl.
  rewrite bind_run. unfold find_one.
  rewrite (blocking_quiet _ _ (after_call _ _ _ _) t2 rest eq_refl H2).
  simpl. rewrite Hdoc. rewrite bind_run.
  unfold JobStatus_from_str. rewrite Hjs. unfold raise.
  eexists. split; [reflexivity|]. split; reflexivity.
Qed.

(** C3, at the input where it fails.  The job is pending when Ctrl-C
    arrives, the cancellation request succeeds, and the next poll finds
    the status "bogus": the run ends with an uncaught [KeyError], no line
    is logged at level ERROR, and the interpreter exits with status 1.
    The polling loop, met with the same status, logs the unknown status
    once and returns -1. *)
Theorem unknown_status_while_cancelling_escapes :
  let r := main Scenario.args Scenario.env
             (initial ∅ Scenario.cancel_then_unknown) in
  let r' := main Scenario.args Scenario.env
              (initial ∅ Scenario.monitor_then_unknown) in
  r.1 = Raised (KeyError "bogus") /\
  error_lines (trace r.2) = [] /\
  last_log (trace r.2) = Some TryingToCancel /\
  exit_status r.1 = Some 1 /\
  r'.1 = Returned (-1) /\
  error_lines (trace r'.2) = [UnknownStatus "bogus" 1] /\
  exit_status r'.1 = Some 255.
Proof. vm_compute. repeat split. Qed.

(** ** The theorems at concrete inputs *)

Lemma scenario_args_valid : valid_args Scenario.args.
Proof.
  unfold valid_args. simpl.
  repeat split; try exact I; intros _; intros H; discriminate H.
Defined.

Lemma scenario_config_given : config_uri Scenario.env <> None.
Proof. intros H; discriminate H. Defined.


(** Ctrl-C after the worker has started the job. *)
Lemma cancellation_too_late_witness :
  exists st2,
    run_job 6 Scenario.env Scenario.entry
      (initial ∅ Scenario.interrupted_after_start) = (Returned 0, st2) /\
    error_lines (trace st2) = [AlreadyStarted].
Proof.
  destruct (cancellation_too_late_returns_zero 6 Scenario.env Scenario.entry
              (initial ∅ Scenario.interrupted_after_start)
              (submit_and_monitor 6 Scenario.env Scenario.entry
                 (set_job_id None
                    (initial ∅ Scenario.interrupted_after_start)).2).2
              1 Scenario.quiet [])
    as (st2 & Hrun & _ & Htr & _).
  - vm_compute. reflexivity.
  - vm_compute. reflexivity.
  - vm_compute. reflexivity.
  - reflexivity.
  - intros d Hd. vm_compute in Hd. inversion Hd. subst d. simpl.
    intros H; discriminate H.
  - exists st2. split; [exact Hrun|]. rewrite Htr. vm_compute. reflexivity.
Defined.


(** 1,000,000 bytes in 2000 ms: 2 seconds, 500,000 bytes per second. *)
Lemma done_reports_runtime_and_speed_witness :
  exists st',
    monitor_iteration 1 0
      (Scenario.polling
         (Scenario.finished (Millis 1000) (Millis 3000)
            (Scenario.compressed 1000000 250000 Scenario.entry)))
      = (Normal (Break, 1000000), st') /\
    finished_reports (trace st') =
      [((inject_Z 2000 / inject_Z 1000)%Q,
        (inject_Z 1000000 / (inject_Z 2000 / inject_Z 1000))%Q)].
Proof.
  destruct (done_reports_runtime_and_speed 1
              (Scenario.polling
                 (Scenario.finished (Millis 1000) (Millis 3000)
                    (Scenario.compressed 1000000 250000 Scenario.entry)))
              0
              (Scenario.polling
                 (Scenario.finished (Millis 1000) (Millis 3000)
                    (Scenario.compressed 1000000 250000 Scenario.entry)))
              Scenario.quiet Scenario.quiet []
              (Scenario.finished (Millis 1000) (Millis 3000)
                 (Scenario.compressed 1000000 250000 Scenario.entry))
              (Millis 3000) (Millis 1000) (IntDelta (3000 - 1000))
              (head_first _ _) eq_refl eq_refl eq_refl eq_refl eq_refl
              eq_refl eq_refl)
    as (runtime & total & st' & -> & -> & Hrun & Hf).
  - left. exists 3000, 1000. repeat split.
  - simpl. lia.
  - exists st'. split; [exact Hrun | exact Hf].
Defined.

(** A job that ends in the millisecond it began. *)
Lemma done_divides_by_zero_witness :
  (handle_status 1 10 Scenario.instant (Scenario.polling Scenario.instant)).1
  = Raised ZeroDivisionError.
Proof.
  apply (proj2 (done_divides_by_zero_iff_equal_timestamps 1 10
                  Scenario.instant (Scenario.polling Scenario.instant)
                  eq_refl)).
  exists (Millis 5000). split; reflexivity.
Defined.

(** The second pass through the loop, after a poll that reported
    progress. *)
Lemma progress_ratio_witness :
  0 <= 1000000 /\
  exists last' st2,
    report_progress 1000000
      (Scenario.compressed 2000000 400000 Scenario.entry)
      (Scenario.polling Scenario.entry) = (Normal last', st2) /\
    0 <= last'.
Proof.
  destruct (progress_ratio_never_divides_by_zero 1
              (Scenario.polling
                 (Scenario.compressed 1000000 250000 Scenario.entry))
              1000000
              (monitor_iteration 1 0
                 (Scenario.polling
                    (Scenario.compressed 1000000 250000 Scenario.entry))).2
              (Scenario.compressed 2000000 400000 Scenario.entry)
              (Scenario.polling Scenario.entry))
    as (Hlast & last' & st2 & Hrun & Hl & _).
  - eapply head_next; [apply head_first|]. vm_compute. reflexivity.
  - split; [exact Hlast|]. exists last', st2. split; assumption.
Defined.

(** Ctrl-C during [insert_one]. *)
Lemma interrupt_before_id_witness :
  exists entry st',
    main Scenario.args Scenario.env (initial ∅ [Scenario.ctrl_c])
      = (Returned 0, st') /\
    trace st' = [Log INFO TryingToCancel; InsertOne entry].
Proof.
  destruct (interrupt_before_id_skips_cancellation Scenario.args Scenario.env
              ∅ Scenario.ctrl_c [] scenario_args_valid scenario_config_given
              (or_introl eq_refl))
    as (entry & st' & Hrun & _ & Htr & _).
  exists entry, st'. split; assumption.
Defined.

(** * Further properties of the code *)

(** ** Argument validation *)

Lemma check_target_size_normal args opt attr st c st' :
  In attr target_size_attributes ->
  check_target_size args opt attr st = (c, st') ->
  c = Normal tt -> positive_or_absent (supplied args attr).
Proof.
  intros Hin. unfold check_target_size. rewrite bind_run.
  rewrite getattr_run by assumption. unfold positive_or_absent.
  destruct (supplied args attr) as [v|]; [|auto].
  destruct (Z.leb_spec v 0) as [Hle|Hgt]; intros Hrun Hc.
  - unfold parser_error in Hrun. congruence.
  - assumption.
Qed.

Lemma for_each_normal {A} (body : A -> M unit) (ok : A -> Prop) (l : list A) :
  (forall x st c st', In x l -> body x st = (c, st') ->
     check_post c st st' /\ (c = Normal tt -> ok x)) ->
  forall st c st', for_each l body st = (c, st') ->
    c = Normal tt -> forall x, In x l -> ok x.
Proof.
  induction l as [|a l IH]; intros Hbody st c st' H Hc x Hx; simpl in *.
  { contradiction. }
  rewrite bind_run in H.
  destruct (body a st) as [c1 st1] eqn:Ha.
  apply Hbody in Ha as (Hc1 & Hok1); [|left; reflexivity].
  destruct Hc1 as [(-> & ->) | (-> & msg & ->)].
  - destruct Hx as [<- | Hx]; [apply Hok1; reflexivity|].
    eapply IH; eauto.
  - congruence.
Qed.

Lemma validate_args_normal args st c st' :
  validate_args args st = (c, st') -> c = Normal tt -> valid_args args.
Proof.
  unfold validate_args. intros H Hc. rewrite bind_run in H.
  destruct (bool_decide (Args.input_list args = None)
            && (0 =? Z.of_nat (length (Args.paths args)))) eqn:Hfirst.
  { unfold parser_error in H. congruence. }
  unfold mret at 1, M_ret at 1 in H. rewrite bind_run in H.
  destruct ((Z.of_nat (length (Args.paths args)) >? 0)
            && negb (bool_decide (Args.input_list args = None))) eqn:Hsecond.
  { unfold parser_error in H. congruence. }
  unfold mret at 1, M_ret at 1 in H.
  assert (Hall : forall attr, In attr target_size_attributes ->
                              positive_or_absent (supplied args attr)).
  { intros attr Hin.
    assert (Hlen : exists opt,
      In (opt, attr) (combine target_size_options target_size_attributes)).
    { rewrite target_size_attributes_eq in *. simpl in Hin |- *.
      destruct Hin as [<- | [<- | [<- | [<- | [<- | []]]]]]; eauto 10. }
    destruct Hlen as (opt & Hin').
    assert (Hbody : forall (x : string * string) s0 c0 s0',
      In x (combine target_size_options target_size_attributes) ->
      (let '(o, a) := x in check_target_size args o a) s0 = (c0, s0') ->
      check_post c0 s0 s0' /\
      (c0 = Normal tt -> positive_or_absent (supplied args x.2))).
    { intros [o a] s0 c0 s0' Hi Hr. apply in_combine_r in Hi. split.
      - exact (proj1 (check_target_size_post _ _ _ _ _ _ Hi Hr)).
      - exact (check_target_size_normal _ _ _ _ _ _ Hi Hr). }
    exact (for_each_normal _ _ _ Hbody _ _ _ H Hc (opt, attr) Hin'). }
  rewrite target_size_attributes_eq in Hall.
  unfold valid_args. split.
  - apply andb_false_iff in Hfirst, Hsecond. split.
    + intros Hn Hp. destruct Hfirst as [H1|H1].
      * apply bool_decide_eq_false_1 in H1. contradiction.
      * rewrite Hp in H1. discriminate H1.
    + intros Hp. destruct (Args.input_list args) as [f|]; [|reflexivity].
      exfalso. destruct (Args.paths args) as [|p ps]; [contradiction|].
      simpl in Hsecond. destruct Hsecond as [H1|H1]; discriminate H1.
  - repeat split.
    + exact (Hall "target_archive_size" ltac:(simpl; auto 10)).
    + exact (Hall "target_archive_dictionaries_data_size"
               ltac:(simpl; auto 10)).
    + exact (Hall "target_segment_size" ltac:(simpl; auto 10)).
    + exact (Hall "target_encoded_file_size" ltac:(simpl; auto 10)).
    + exact (Hall "target_num_archives" ltac:(simpl; auto 10)).
Qed.

(** X3. The argument checks accept an invocation exactly when the paths
    come from one source, the command line or an input list (the list of
    paths is non-empty iff no input list is given), and every target size
    that is given is greater than 0; an accepted invocation leaves no
    trace. *)
Theorem validation_accepts_iff_valid (args : Args.t) (st : State) :
  validate_args args st = (Normal tt, st) <-> valid_args args.
Proof.
  split.
  - intros H. exact (validate_args_normal _ _ _ _ H eq_refl).
  - apply validate_args_valid.
Qed.

(** X4. An invocation that fails the argument checks ends in the parser's
    error exit, status 2, before the configuration is read: one parser
    error is printed, no store call is made, no job document is created
    and nothing is logged. *)
Theorem invalid_arguments_exit_before_submission
    (args : Args.t) (env : Env) (s : gmap N JobDoc) (script : list Tick) :
  ~ valid_args args ->
  exists msg,
    main args env (initial s script)
      = (Raised (SystemExit 2), emit (ParserError msg) (initial s script)) /\
    exit_status (Raised (SystemExit 2)) = Some 2.
Proof.
  intros Hinv. unfold main, main_fuel. rewrite bind_run.
  destruct (validate_args args (initial s script)) as [c st1] eqn:Hv.
  pose proof (validate_args_normal _ _ _ _ Hv) as Hn.
  apply validate_args_post in Hv as ([(-> & _) | (-> & msg & ->)] & _).
  - exfalso. apply Hinv, Hn. reflexivity.
  - exists msg. split; reflexivity.
Qed.

Lemma invalid_arguments_witness :
  exists msg,
    main Cases.no_paths Scenario.env (initial ∅ Scenario.completes)
      = (Raised (SystemExit 2),
         emit (ParserError msg) (initial ∅ Scenario.completes)).
Proof.
  destruct (invalid_arguments_exit_before_submission Cases.no_paths
              Scenario.env ∅ Scenario.completes) as (msg & Hrun & _).
  - intros (Hsrc & _). apply (proj1 Hsrc); reflexivity.
  - exists msg. exact Hrun.
Defined.

(** X5. When the configuration file is rejected, [main] logs the
    validation error once and returns -1 without any store call: no job
    document is created and the script of the environment is untouched. *)
Theorem rejected_configuration_creates_no_job
    (args : Args.t) (env : Env) (s : gmap N JobDoc) (script : list Tick) :
  valid_args args ->
  config_uri env = None ->
  main args env (initial s script)
    = (Returned (-1), emit (Log ERROR ValidationFailed) (initial s script)).
Proof.
  intros Hv Hcfg. unfold main, main_fuel.
  rewrite bind_run, validate_args_valid by assumption.
  rewrite bind_run. unfold load_config. rewrite Hcfg. reflexivity.
Qed.

Lemma rejected_configuration_witness :
  main Scenario.args Cases.bad_config (initial ∅ Scenario.completes)
    = (Returned (-1),
       emit (Log ERROR ValidationFailed) (initial ∅ Scenario.completes)).
Proof.
  exact (rejected_configuration_creates_no_job Scenario.args Cases.bad_config
           ∅ Scenario.completes scenario_args_valid eq_refl).
Defined.

(** X6. Once [parse_args] has handed over the namespace (lines 78-257),
    [main] never falls off the end, however the run goes: it returns 0 or
    -1, or it ends with an exception, and the only [SystemExit] raised
    there is that of [args_parser.error], with code 2; a run that is
    still blocked has used up the script. *)
Theorem main_returns_zero_or_minus_one
    (args : Args.t) (env : Env) (s : gmap N JobDoc) (script : list Tick) :
  match (main args env (initial s script)).1 with
  | Returned code => code = 0 \/ code = -1
  | Normal _ => False
  | Raised e => e = SystemExit 2 \/ not_exit e
  | Blocked => ticks (main args env (initial s script)).2 = []
  end.
Proof.
  unfold main.
  destruct (main_fuel _ args env (initial s script)) as [c st'] eqn:H.
  apply main_fuel_post in H as (Hm & _ & Hfuel & _); [|exact I].
  simpl. destruct c as [[]|code|e|]; simpl in Hm.
  - contradiction.
  - destruct Hm as [(-> & _) | (-> & _)]; auto.
  - tauto.
  - apply Hfuel; [reflexivity | simpl; lia].
Qed.

(** ** The input paths of the job document *)

Lemma main_inserted_entry args env s script :
  valid_args args -> config_uri env <> None ->
  exists oc,
    inserts (trace (main args env (initial s script)).2)
    = [make_entry args env (collect_input_paths args env) oc].
Proof.
  intros Hv Hcfg. unfold main.
  destruct (main_fuel _ args env (initial s script)) as [c st'] eqn:H.
  apply main_fuel_post in H as (_ & _ & _ & Hins); [|exact I].
  destruct (Hins Hv Hcfg) as (oc & _ & Hi). exists oc. exact Hi.
Qed.

Lemma collect_explicit_paths env (l : list string) :
  flat_map
    (fun path_str =>
       if String.eqb "" (strip path_str) then []
       else [resolve env (strip path_str)]) l
  = map (fun p => resolve env (strip p)) (filter (fun p => strip p <> "") l).
Proof.
  induction l as [|p l IH]; [reflexivity|].
  cbn [flat_map]. rewrite filter_cons, IH.
  destruct (String.eqb_spec "" (strip p)) as [Heq|Hne];
    destruct (decide (strip p <> "")) as [Hd|Hd]; try reflexivity.
  - exfalso. apply Hd. symmetry. assumption.
  - exfalso. apply Hd. intros Heq. apply Hne. symmetry. assumption.
Qed.

(** X7. With the paths given on the command line, the document of a valid
    invocation carries the path prefix as it was given and, as input
    paths, each path stripped of surrounding white space ([str.strip()],
    Unicode white space included) and resolved, in order, the paths that
    are blank once stripped left out. *)
Theorem submitted_input_paths
    (args : Args.t) (env : Env) (s : gmap N JobDoc) (script : list Tick) :
  valid_args args ->
  config_uri env <> None ->
  Args.input_list args = None ->
  exists entry,
    inserts (trace (main args env (initial s script)).2) = [entry] /\
    path_prefix_to_remove (input_config entry)
      = Args.path_prefix_to_remove args /\
    paths (input_config entry) =
      map (fun p => resolve env (strip p))
          (filter (fun p => strip p <> "") (Args.paths args)).
Proof.
  intros Hv Hcfg Hlist.
  destruct (main_inserted_entry args env s script Hv Hcfg) as (oc & Hi).
  eexists. split; [exact Hi|]. simpl. split; [reflexivity|].
  unfold collect_input_paths. rewrite Hlist.
  apply collect_explicit_paths.
Qed.

Lemma padded_paths_valid : valid_args Cases.padded_paths.
Proof.
  unfold valid_args. simpl. split; [split|].
  - intros _ H; discriminate H.
  - reflexivity.
  - repeat split; exact I.
Qed.

(** Of [" /a<U+2003>"], a no-break space and ["/b"], the paths ["/a"] and
    ["/b"] are submitted. *)
Lemma submitted_input_paths_witness :
  exists entry,
    inserts (trace (main Cases.padded_paths Scenario.env
                      (initial ∅ Scenario.completes)).2) = [entry] /\
    path_prefix_to_remove (input_config entry) = Some "/" /\
    paths (input_config entry) = ["/a"; "/b"].
Proof.
  destruct (submitted_input_paths Cases.padded_paths Scenario.env ∅
              Scenario.completes padded_paths_valid scenario_config_given
              eq_refl)
    as (entry & Hi & Hpre & Hp).
  exists entry. split; [exact Hi|]. split; [exact Hpre|].
  rewrite Hp. vm_compute. reflexivity.
Defined.

(** X8. The check for missing paths counts the paths before they are
    stripped: an invocation whose paths are all blank ([str.strip()]
    leaves nothing of them) passes it, and the job document is submitted
    with an empty list of input paths. *)
Theorem blank_paths_submit_an_empty_job
    (args : Args.t) (env : Env) (s : gmap N JobDoc) (script : list Tick) :
  valid_args args ->
  config_uri env <> None ->
  Args.input_list args = None ->
  Forall (fun p => strip p = "") (Args.paths args) ->
  exists entry,
    inserts (trace (main args env (initial s script)).2) = [entry] /\
    paths (input_config entry) = [].
Proof.
  intros Hv Hcfg Hlist Hblank.
  destruct (main_inserted_entry args env s script Hv Hcfg) as (oc & Hi).
  eexists. split; [exact Hi|]. simpl.
  unfold collect_input_paths. rewrite Hlist.
  induction Hblank as [|p l Hp _ IH]; [reflexivity|].
  cbn [flat_map]. rewrite Hp. exact IH.
Qed.

Lemma blank_paths_witness :
  exists entry,
    inserts (trace (main Cases.blank_paths Scenario.env
                      (initial ∅ Scenario.completes)).2) = [entry] /\
    paths (input_config entry) = [].
Proof.
  apply (blank_paths_submit_an_empty_job Cases.blank_paths Scenario.env ∅
           Scenario.completes).
  - unfold valid_args. simpl.
    repeat split; try exact I; intros _; intros H; discriminate H.
  - intros H; discriminate H.
  - reflexivity.
  - repeat constructor.
Defined.

(** ** The branches of the polling loop *)

Lemma monitor_iteration_missing id last st t1 t2 rest :
  ticks st = t1 :: t2 :: rest ->
  interrupt t1 = Quiet -> interrupt t2 = Quiet ->
  worker t2 (worker t1 (store st)) !! id = None ->
  monitor_iteration id last st
  = (Returned (-1), emit (Log ERROR JobDisappeared) (polled id t1 t2 rest st)).
Proof.
  intros Ht H1 H2 Hdoc. unfold monitor_iteration.
  rewrite bind_run. unfold sleep.
  rewrite (blocking_quiet _ _ _ _ _ Ht H1). simpl.
  rewrite bind_run. unfold find_one.
  rewrite (blocking_quiet _ _ (after_call _ _ _ _) t2 rest eq_refl H2).
  simpl. rewrite Hdoc. reflexivity.
Qed.

Lemma report_progress_progressed last doc st :
  0 <= last ->
  report_progress last doc st
  = (Normal (Z.max last (logs_uncompressed_size doc)), progressed last doc st).
Proof.
  intros Hlast. rewrite report_progress_run by assumption.
  unfold progressed.
  destruct (Z.ltb_spec last (logs_uncompressed_size doc));
    [rewrite Z.max_r by lia | rewrite Z.max_l by lia]; reflexivity.
Qed.

Lemma progressed_errors last doc st :
  error_lines (trace (progressed last doc st)) = error_lines (trace st) /\
  finished_reports (trace (progressed last doc st))
    = finished_reports (trace st) /\
  ticks (progressed last doc st) = ticks st /\
  store (progressed last doc st) = store st.
Proof.
  unfold progressed. destruct (last <? logs_uncompressed_size doc); auto.
Qed.

(** X9. When a poll of the polling loop finds no document, the loop logs
    once that the job disappeared and [main] returns -1 at once: after
    that poll no sleep, no poll and no retry. *)
Theorem polling_stops_when_job_disappears
    (fuel : nat) (id : N) (last : Z) (st : State) (t1 t2 : Tick)
    (rest : list Tick) :
  ticks st = t1 :: t2 :: rest ->
  interrupt t1 = Quiet -> interrupt t2 = Quiet ->
  worker t2 (worker t1 (store st)) !! id = None ->
  exists st',
    monitor_loop (S fuel) id last st = (Returned (-1), st') /\
    trace st' =
      Log ERROR JobDisappeared :: FindOne id MonitorFields :: Sleep
        :: trace st /\
    ticks st' = rest.
Proof.
  intros Ht H1 H2 Hdoc. cbn [monitor_loop]. rewrite bind_run.
  rewrite (monitor_iteration_missing _ _ _ _ _ _ Ht H1 H2 Hdoc).
  eexists. split; [reflexivity|]. split; reflexivity.
Qed.

(** X10. A poll with status FAILED or CANCELLED ends the polling loop: the
    outcome is logged once, at level ERROR, no completion report is
    written and the loop falls through to the [return 0] of [main]. *)
Theorem failed_or_cancelled_ends_polling
    (fuel : nat) (id : N) (last : Z) (st : State) (t1 t2 : Tick)
    (rest : list Tick) (doc : JobDoc) (js : JobStatus) :
  0 <= last ->
  ticks st = t1 :: t2 :: rest ->
  interrupt t1 = Quiet -> interrupt t2 = Quiet ->
  worker t2 (worker t1 (store st)) !! id = Some doc ->
  from_str (status doc) = Some js ->
  js = FAILED \/ js = CANCELLED ->
  exists st',
    monitor_loop (S fuel) id last st = (Normal tt, st') /\
    error_lines (trace st') =
      (if JobStatus_eqb FAILED js then CompressionFailed
       else CompressionCancelled) :: error_lines (trace st) /\
    finished_reports (trace st') = finished_reports (trace st) /\
    ticks st' = rest.
Proof.
  intros Hlast Ht H1 H2 Hdoc Hjs Hcase. cbn [monitor_loop].
  rewrite bind_run.
  rewrite (monitor_iteration_found _ _ _ _ _ _ _ Ht H1 H2 Hdoc).
  rewrite bind_run, report_progress_progressed by assumption.
  destruct (progressed_errors last doc (polled id t1 t2 rest st))
    as (He & Hf & Htk & _).
  unfold handle_status, JobStatus_from_str. unfold_monad. rewrite Hjs.
  destruct Hcase as [-> | ->]; simpl;
    (eexists; split; [reflexivity|]); simpl;
    rewrite He, Hf, Htk; auto.
Qed.

(** X11. A poll with status PENDING, RUNNING or CANCELLING neither ends
    nor fails the polling loop: apart from a progress report nothing is
    logged, the store is left as the worker wrote it, and the loop goes
    on with the largest uncompressed size seen. *)
Theorem non_terminal_status_keeps_polling
    (fuel : nat) (id : N) (last : Z) (st : State) (t1 t2 : Tick)
    (rest : list Tick) (doc : JobDoc) (js : JobStatus) :
  0 <= last ->
  ticks st = t1 :: t2 :: rest ->
  interrupt t1 = Quiet -> interrupt t2 = Quiet ->
  worker t2 (worker t1 (store st)) !! id = Some doc ->
  from_str (status doc) = Some js ->
  js = PENDING \/ js = RUNNING \/ js = CANCELLING ->
  monitor_loop (S fuel) id last st
  = monitor_loop fuel id (Z.max last (logs_uncompressed_size doc))
      (progressed last doc (polled id t1 t2 rest st)) /\
  error_lines (trace (progressed last doc (polled id t1 t2 rest st)))
    = error_lines (trace st) /\
  store (progressed last doc (polled id t1 t2 rest st))
    = worker t2 (worker t1 (store st)).
Proof.
  intros Hlast Ht H1 H2 Hdoc Hjs Hcase. cbn [monitor_loop].
  rewrite bind_run.
  rewrite (monitor_iteration_found _ _ _ _ _ _ _ Ht H1 H2 Hdoc).
  rewrite bind_run, report_progress_progressed by assumption.
  destruct (progressed_errors last doc (polled id t1 t2 rest st))
    as (He & _ & _ & Hs).
  split; [|split; [exact He | exact Hs]].
  unfold handle_status, JobStatus_from_str. unfold_monad. rewrite Hjs.
  destruct Hcase as [-> | [-> | ->]]; reflexivity.
Qed.

(** X12. A DONE document that lacks a timestamp, or whose two timestamps
    are of different kinds, ends the client with an uncaught exception
    and without a completion report: [KeyError] for the missing field,
    the end timestamp being read first, [TypeError] for the mixed pair. *)
Theorem done_without_usable_timestamps_escapes
    (id : N) (last : Z) (doc : JobDoc) (st : State) :
  from_str (status doc) = Some DONE ->
  match end_timestamp doc, begin_timestamp doc with
  | None, _ =>
      handle_status id last doc st = (Raised (KeyError "end_timestamp"), st)
  | Some _, None =>
      handle_status id last doc st = (Raised (KeyError "begin_timestamp"), st)
  | Some (Millis _), Some (Datetime _)
  | Some (Datetime _), Some (Millis _) =>
      handle_status id last doc st = (Raised TypeError, st)
  | _, _ => True
  end.
Proof.
  intros Hjs. rewrite handle_status_done by assumption.
  unfold handle_done, getitem, sub_timestamps. unfold_monad.
  destruct (end_timestamp doc) as [[e|e]|], (begin_timestamp doc) as [[b|b]|];
    try reflexivity; exact I.
Qed.

(** X13. On a DONE document with a non-zero runtime the loop writes the
    completion report and then, exactly when the [errors] flag of the
    document is set, one more line at level ERROR; either way the loop
    ends, and the client touches neither the store nor the script. *)
Theorem done_reports_then_warns_of_errors
    (id : N) (last : Z) (doc : JobDoc) (st : State) (e b : Timestamp)
    (delta : Delta) :
  from_str (status doc) = Some DONE ->
  end_timestamp doc = Some e ->
  begin_timestamp doc = Some b ->
  (exists e' b', e = Millis e' /\ b = Millis b' /\ delta = IntDelta (e' - b')) \/
  (exists e' b',
     e = Datetime e' /\ b = Datetime b' /\ delta = Timedelta (e' - b')) ->
  delta_value delta <> 0 ->
  exists st',
    handle_status id last doc st = (Normal Break, st') /\
    trace st' =
      ((if errors doc then [Log ERROR ErrorsOccurred] else [])
       ++ Log INFO (Finished (runtime_seconds delta)
                      (inject_Z last / runtime_seconds delta)%Q)
       :: trace st)%list /\
    store st' = store st /\ ticks st' = ticks st.
Proof.
  intros Hjs He Hb Henc Hnz. rewrite handle_status_done by assumption.
  assert (Hsub : sub_timestamps e b st = (Normal delta, st)).
  { destruct Henc as [(e' & b' & -> & -> & ->) | (e' & b' & -> & -> & ->)];
      reflexivity. }
  assert (Hz : Qeq_bool (runtime_seconds delta) 0 = false).
  { destruct (Qeq_bool (runtime_seconds delta) 0) eqn:Hz; [|reflexivity].
    apply runtime_zero in Hz. contradiction. }
  unfold handle_done. rewrite He, Hb. unfold getitem, py_div.
  unfold mbind, M_bind, mret, M_ret, log. rewrite Hsub, Hz.
  destruct (errors doc); eexists; (split; [reflexivity|]); auto.
Qed.

(** ** The wait for the cancellation *)

Lemma cancel_wait_found fuel id st t1 t2 rest doc :
  ticks st = t1 :: t2 :: rest ->
  interrupt t1 = Quiet -> interrupt t2 = Quiet ->
  worker t2 (worker t1 (store st)) !! id = Some doc ->
  cancel_wait_loop (S fuel) id st =
  (job_status ← JobStatus_from_str (status doc);
   if JobStatus_eqb CANCELLED job_status || JobStatus_eqb DONE job_status
   then log INFO CancelledJobs
   else cancel_wait_loop fuel id) (polled_status id t1 t2 rest st).
Proof.
  intros Ht H1 H2 Hdoc. cbn [cancel_wait_loop].
  rewrite bind_run. unfold sleep.
  rewrite (blocking_quiet _ _ _ _ _ Ht H1). simpl.
  rewrite bind_run. unfold find_one.
  rewrite (blocking_quiet _ _ (after_call _ _ _ _) t2 rest eq_refl H2).
  simpl. rewrite Hdoc. reflexivity.
Qed.

(** X14. While it waits for the cancellation the client stops on a poll
    with status CANCELLED or DONE, logging that the job was cancelled in
    both cases; on every other status, FAILED included, it logs nothing
    and polls again. *)
Theorem cancel_wait_ends_only_on_cancelled_or_done
    (fuel : nat) (id : N) (st : State) (t1 t2 : Tick) (rest : list Tick)
    (doc : JobDoc) (js : JobStatus) :
  ticks st = t1 :: t2 :: rest ->
  interrupt t1 = Quiet -> interrupt t2 = Quiet ->
  worker t2 (worker t1 (store st)) !! id = Some doc ->
  from_str (status doc) = Some js ->
  (js = CANCELLED \/ js = DONE ->
   cancel_wait_loop (S fuel) id st
   = (Normal tt, emit (Log INFO CancelledJobs)
                   (polled_status id t1 t2 rest st))) /\
  (js <> CANCELLED -> js <> DONE ->
   cancel_wait_loop (S fuel) id st
   = cancel_wait_loop fuel id (polled_status id t1 t2 rest st)).
Proof.
  intros Ht H1 H2 Hdoc Hjs.
  rewrite (cancel_wait_found _ _ _ _ _ _ _ Ht H1 H2 Hdoc).
  rewrite bind_run. unfold JobStatus_from_str. rewrite Hjs.
  unfold mret, M_ret. split.
  - intros [-> | ->]; reflexivity.
  - intros Hc Hd. destruct js; try reflexivity; contradiction.
Qed.

(** X15. When a poll of the cancellation wait finds no document, the
    client logs once that the job disappeared and [main] returns -1
    without polling again. *)
Theorem cancel_wait_stops_when_job_disappears
    (fuel : nat) (id : N) (st : State) (t1 t2 : Tick) (rest : list Tick) :
  ticks st = t1 :: t2 :: rest ->
  interrupt t1 = Quiet -> interrupt t2 = Quiet ->
  worker t2 (worker t1 (store st)) !! id = None ->
  cancel_wait_loop (S fuel) id st
  = (Returned (-1),
     emit (Log ERROR JobDisappeared) (polled_status id t1 t2 rest st)).
Proof.
  intros Ht H1 H2 Hdoc. cbn [cancel_wait_loop].
  rewrite bind_run. unfold sleep.
  rewrite (blocking_quiet _ _ _ _ _ Ht H1). simpl.
  rewrite bind_run. unfold find_one.
  rewrite (blocking_quiet _ _ (after_call _ _ _ _) t2 rest eq_refl H2).
  simpl. rewrite Hdoc. reflexivity.
Qed.


(** X17. The handler is not protected against a second interrupt: when
    Ctrl-C arrives again during the conditional update, the
    [KeyboardInterrupt] leaves [main] uncaught, nothing more is logged,
    and the interpreter ends with status 130. *)
Theorem second_interrupt_escapes
    (fuel : nat) (env : Env) (entry : JobDoc) (st st1 : State) (id : N)
    (t : Tick) (rest : list Tick) :
  submit_and_monitor fuel env entry (set_job_id None st).2
    = (Raised KeyboardInterrupt, st1) ->
  job_id st1 = Some id ->
  ticks st1 = t :: rest ->
  interrupt t <> Quiet ->
  exists st2,
    run_job fuel env entry st = (Raised KeyboardInterrupt, st2) /\
    trace st2 =
      FindOneAndUpdate id (JobStatus_str PENDING) (JobStatus_str CANCELLING)
        :: Log INFO TryingToCancel :: trace st1 /\
    ticks st2 = rest /\
    exit_status (Raised KeyboardInterrupt) = Some 130.
Proof.
  intros Hbody Hid Ht Hq.
  unfold run_job. rewrite bind_run. simpl in Hbody |- *.
  rewrite bind_run. unfold try_except. rewrite Hbody. simpl.
  unfold on_keyboard_interrupt. rewrite bind_run. unfold log at 1.
  rewrite bind_run. unfold get_job_id. simpl. rewrite Hid.
  rewrite bind_run. unfold request_cancellation, find_one_and_update.
  unfold blocking. simpl. rewrite Ht.
  destruct (interrupt t); [contradiction | |].
  - eexists. split; [reflexivity|]. auto.
  - unfold find_one_and_update_op.
    destruct (worker t (store st1) !! id) as [d|];
      [destruct (String.eqb (status d) "pending")|];
      (eexists; split; [reflexivity|]; auto).
Qed.

(** ** What the client writes, and how often it polls *)

Lemma read_only_refl st : read_only st st.
Proof. exists []. split; reflexivity. Qed.

Lemma read_only_trans st1 st2 st3 :
  read_only st1 st2 -> read_only st2 st3 -> read_only st1 st3.
Proof.
  intros (c1 & Ht1 & Hs1) (c2 & Ht2 & Hs2). exists (c1 ++ c2)%list. split.
  - rewrite Ht1, Ht2. apply app_assoc.
  - rewrite Hs2, Hs1. symmetry. apply fold_left_app.
Qed.

Lemma paced_refl st : paced st st.
Proof.
  unfold paced. split; [reflexivity|]. split; [lia|].
  split; [apply read_only_refl | reflexivity].
Qed.

Lemma paced_trans st1 st2 st3 : paced st1 st2 -> paced st2 st3 -> paced st1 st3.
Proof.
  unfold paced. intros (Hu1 & Hp1 & Hr1 & Hj1) (Hu2 & Hp2 & Hr2 & Hj2).
  split; [congruence|]. split; [lia|].
  split; [eapply read_only_trans; eassumption | congruence].
Qed.

Lemma logs_only_paced st st' : logs_only st st' -> paced st st'.
Proof.
  unfold logs_only, paced. intros (Hs & Ht & Hj & Hu & Hp & Hsl).
  split; [assumption|]. split; [lia|]. split; [|assumption].
  exists []. simpl. split; [symmetry; assumption | assumption].
Qed.

Lemma logs_only_refl st : logs_only st st.
Proof. unfold logs_only. auto 10. Qed.

Lemma logs_only_emit lvl m st : logs_only st (emit (Log lvl m) st).
Proof. unfold logs_only. simpl. auto 10. Qed.

Lemma logs_only_trans st1 st2 st3 :
  logs_only st1 st2 -> logs_only st2 st3 -> logs_only st1 st3.
Proof.
  unfold logs_only. intros (?&?&?&?&?&?) (?&?&?&?&?&?).
  repeat split; congruence.
Qed.

Lemma report_progress_logs last doc st c st' :
  report_progress last doc st = (c, st') -> logs_only st st'.
Proof.
  unfold report_progress, py_div. unfold_monad.
  intros H. repeat case_match; simplify_eq;
    first [apply logs_only_refl | apply logs_only_emit].
Qed.

Lemma handle_done_logs last doc st c st' :
  handle_done last doc st = (c, st') -> logs_only st st'.
Proof.
  unfold handle_done, getitem, sub_timestamps, py_div. unfold_monad.
  intros H. repeat case_match; simplify_eq;
    first [ apply logs_only_refl
          | apply logs_only_emit
          | eapply logs_only_trans; apply logs_only_emit ].
Qed.

Lemma handle_status_logs id last doc st c st' :
  handle_status id last doc st = (c, st') -> logs_only st st'.
Proof.
  unfold handle_status, JobStatus_from_str. unfold_monad.
  destruct (from_str (status doc)) as [js|]; simpl;
    [destruct js; simpl|]; intros H;
    try (inversion H; subst;
         first [apply logs_only_refl | apply logs_only_emit]; fail).
  eapply handle_done_logs; eassumption.
Qed.

(** A blocking call that does not write consumes at most one tick and
    leaves the collection as the other processes made it. *)
Lemma blocking_read_only {A} ev
    (op : gmap N JobDoc -> Completion A * gmap N JobDoc) st c st' :
  (forall s, (op s).2 = s) ->
  blocking ev op st = (c, st') ->
  read_only st st' /\ trace st' = ev :: trace st /\ job_id st' = job_id st.
Proof.
  intros Hop H. unfold blocking in H. simpl in H.
  destruct (ticks st) as [|t rest] eqn:Ht.
  { inversion H; subst. simpl. split; [|auto].
    exists []. simpl. rewrite Ht. auto. }
  assert (Hro : forall s', s' = worker t (store st) ->
            read_only st (step_env s' rest (emit ev st))).
  { intros s' ->. exists [t]. simpl. rewrite Ht. auto. }
  destruct (interrupt t).
  - destruct (op (worker t (store st))) as [r s'] eqn:Hr.
    inversion H; subst. simpl. split; [|auto]. apply Hro.
    rewrite <- (Hop (worker t (store st))), Hr. reflexivity.
  - inversion H; subst. simpl. split; [|auto]. apply Hro. reflexivity.
  - destruct (op (worker t (store st))) as [r s'] eqn:Hr.
    inversion H; subst. simpl. split; [|auto]. apply Hro.
    rewrite <- (Hop (worker t (store st))), Hr. reflexivity.
Qed.

Lemma sleep_then_poll_paced {A} id p (k : option JobDoc -> M A) st c st' :
  (forall doc s1 c1 s1', k doc s1 = (c1, s1') -> logs_only s1 s1') ->
  (sleep ;; doc ← find_one id p; k doc) st = (c, st') ->
  paced st st'.
Proof.
  intros Hk H. rewrite bind_run in H.
  destruct (sleep st) as [c1 st1] eqn:Hs.
  apply blocking_read_only in Hs as (Hr1 & Ht1 & Hj1); [|reflexivity].
  assert (Hp1 : paced st st1).
  { unfold paced. rewrite Ht1. simpl. split; [reflexivity|].
    split; [lia | auto]. }
  destruct c1 as [[]| | |]; try (inversion H; subst; exact Hp1).
  rewrite bind_run in H.
  destruct (find_one id p st1) as [c2 st2] eqn:Hf.
  apply blocking_read_only in Hf as (Hr2 & Ht2 & Hj2); [|reflexivity].
  assert (Hp2 : paced st st2).
  { unfold paced. rewrite Ht2, Ht1. simpl. split; [reflexivity|].
    split; [lia|]. split; [eapply read_only_trans; eassumption | congruence]. }
  destruct c2 as [doc| | |]; try (inversion H; subst; exact Hp2).
  apply Hk in H. eapply paced_trans; [exact Hp2|].
  apply logs_only_paced. exact H.
Qed.

Lemma monitor_iteration_paced id last st c st' :
  monitor_iteration id last st = (c, st') -> paced st st'.
Proof.
  unfold monitor_iteration. apply sleep_then_poll_paced.
  intros [doc|] s1 c1 s1' H.
  - rewrite bind_run in H.
    destruct (report_progress last doc s1) as [c2 s2] eqn:Hrp.
    apply report_progress_logs in Hrp.
    destruct c2 as [last'| | |]; try (inversion H; subst; exact Hrp).
    rewrite bind_run in H.
    destruct (handle_status id last' doc s2) as [c3 s3] eqn:Hhs.
    apply handle_status_logs in Hhs.
    assert (s1' = s3) as ->
      by (destruct c3; unfold_monad; inversion H; reflexivity).
    eapply logs_only_trans; eassumption.
  - unfold_monad. inversion H; subst. apply logs_only_emit.
Qed.

Lemma monitor_loop_paced fuel : forall id last st c st',
  monitor_loop fuel id last st = (c, st') -> paced st st'.
Proof.
  induction fuel as [|fuel IH]; intros id last st c st' H; simpl in H.
  { unfold out_of_fuel in H. inversion H; subst. apply paced_refl. }
  rewrite bind_run in H.
  destruct (monitor_iteration id last st) as [c1 st1] eqn:Hit.
  apply monitor_iteration_paced in Hit.
  destruct c1 as [[[|] last']| | |];
    try (unfold_monad; inversion H; subst; exact Hit).
  apply IH in H. eapply paced_trans; eassumption.
Qed.

Lemma sleep_then_poll_cases {A} id p (k : option JobDoc -> M A) st c st' :
  (sleep ;; doc ← find_one id p; k doc) st = (c, st') ->
  paced st st' \/
  exists doc s2, paced st s2 /\ k doc s2 = (c, st').
Proof.
  intros H. rewrite bind_run in H.
  destruct (sleep st) as [c1 st1] eqn:Hs.
  apply blocking_read_only in Hs as (Hr1 & Ht1 & Hj1); [|reflexivity].
  assert (Hp1 : paced st st1).
  { unfold paced. rewrite Ht1. simpl. split; [reflexivity|].
    split; [lia | auto]. }
  destruct c1 as [[]| | |]; try (inversion H; subst; left; exact Hp1).
  rewrite bind_run in H.
  destruct (find_one id p st1) as [c2 st2] eqn:Hf.
  apply blocking_read_only in Hf as (Hr2 & Ht2 & Hj2); [|reflexivity].
  assert (Hp2 : paced st st2).
  { unfold paced. rewrite Ht2, Ht1. simpl. split; [reflexivity|].
    split; [lia|]. split; [eapply read_only_trans; eassumption | congruence]. }
  destruct c2 as [doc| | |]; try (inversion H; subst; left; exact Hp2).
  right. eauto.
Qed.

Lemma cancel_wait_loop_paced fuel : forall id st c st',
  cancel_wait_loop fuel id st = (c, st') -> paced st st'.
Proof.
  induction fuel as [|fuel IH]; intros id st c st' H.
  { unfold cancel_wait_loop, out_of_fuel in H. inversion H; subst.
    apply paced_refl. }
  cbn [cancel_wait_loop] in H.
  apply sleep_then_poll_cases in H as [Hp | (doc & s2 & Hp & Hk)];
    [exact Hp|].
  eapply paced_trans; [exact Hp|]. destruct doc as [doc|].
  - rewrite bind_run in Hk. unfold JobStatus_from_str in Hk.
    destruct (from_str (status doc)) as [js|].
    + unfold mret, M_ret in Hk.
      destruct (JobStatus_eqb CANCELLED js || JobStatus_eqb DONE js).
      * unfold log in Hk. inversion Hk; subst.
        apply logs_only_paced, logs_only_emit.
      * eapply IH; eassumption.
    + unfold raise in Hk. inversion Hk; subst. apply paced_refl.
  - unfold_monad. inversion Hk; subst.
    apply logs_only_paced, logs_only_emit.
Qed.

(** X18. The polling loop never writes to the collection: however it
    ends, the ticks it used are a prefix of the script and the collection
    is exactly what the other processes made of it over those ticks. *)
Theorem polling_never_writes
    (fuel : nat) (id : N) (last : Z) (st : State) :
  exists consumed,
    ticks st = (consumed ++ ticks (monitor_loop fuel id last st).2)%list /\
    store (monitor_loop fuel id last st).2
      = fold_left (fun s t => worker t s) consumed (store st).
Proof.
  destruct (monitor_loop fuel id last st) as [c st'] eqn:H.
  apply monitor_loop_paced in H as (_ & _ & Hr & _). exact Hr.
Qed.

(** X19. Neither does the wait for the cancellation: after the one
    conditional update the client only reads. *)
Theorem cancel_wait_never_writes (fuel : nat) (id : N) (st : State) :
  exists consumed,
    ticks st = (consumed ++ ticks (cancel_wait_loop fuel id st).2)%list /\
    store (cancel_wait_loop fuel id st).2
      = fold_left (fun s t => worker t s) consumed (store st).
Proof.
  destruct (cancel_wait_loop fuel id st) as [c st'] eqn:H.
  apply cancel_wait_loop_paced in H as (_ & _ & Hr & _). exact Hr.
Qed.

Lemma silent_tail t rest : silent (t :: rest) -> silent rest.
Proof. intros H. inversion H; assumption. Qed.

Lemma read_only_silent st st' :
  read_only st st' -> silent (ticks st) ->
  silent (ticks st') /\ store st' = store st.
Proof.
  intros (consumed & Ht & Hs) Hsil. rewrite Ht in Hsil.
  apply Forall_app in Hsil as (Hc & Hrest). split; [exact Hrest|].
  rewrite Hs. clear Ht Hs Hrest. revert Hc. generalize (store st).
  induction consumed as [|t l IH]; intros s Hc; [reflexivity|].
  simpl. inversion Hc as [|? ? Ht Hl]; subst. rewrite Ht. apply IH, Hl.
Qed.

Lemma request_cancellation_effect id st c st' :
  request_cancellation id st = (c, st') ->
  trace st' =
    FindOneAndUpdate id (JobStatus_str PENDING) (JobStatus_str CANCELLING)
      :: trace st /\
  job_id st' = job_id st /\
  (silent (ticks st) ->
   silent (ticks st') /\
   (store st' = store st \/
    exists d, store st !! id = Some d /\ status d = JobStatus_str PENDING /\
      store st' = <[id := with_status (JobStatus_str CANCELLING) d]> (store st))).
Proof.
  intros H. pose proof H as Hpost.
  apply blocking_post in Hpost as (Htr & Hj & _).
  split; [exact Htr|]. split; [exact Hj|]. intros Hsil.
  unfold request_cancellation, find_one_and_update, blocking in H.
  simpl in H. destruct (ticks st) as [|t rest] eqn:Ht.
  { inversion H; subst. simpl. rewrite Ht. auto. }
  inversion Hsil as [|? ? Hw Hrest]; subst.
  rewrite Hw in H. unfold find_one_and_update_op in H.
  destruct (interrupt t);
    try (destruct (store st !! id) as [d|] eqn:Hd;
         [destruct (String.eqb_spec (status d) "pending")|]);
    inversion H; subst; simpl; (split; [exact Hrest|]); eauto 10.
Qed.

Lemma on_keyboard_interrupt_effect fuel st c st' :
  on_keyboard_interrupt fuel st = (c, st') ->
  job_id st' = job_id st /\
  (polls (trace st') + sleeps (trace st)
   <= sleeps (trace st') + polls (trace st))%nat /\
  (updates (trace st') = updates (trace st) \/
   exists id, job_id st = Some id /\
     updates (trace st') =
       (id, JobStatus_str PENDING, JobStatus_str CANCELLING)
         :: updates (trace st)) /\
  (silent (ticks st) ->
   store st' = store st \/
   exists id d, job_id st = Some id /\ store st !! id = Some d /\
     status d = JobStatus_str PENDING /\
     store st' = <[id := with_status (JobStatus_str CANCELLING) d]> (store st)).
Proof.
  unfold on_keyboard_interrupt. intros H.
  rewrite bind_run in H. unfold log at 1 in H.
  rewrite bind_run in H. unfold get_job_id in H. simpl in H.
  set (st0 := emit (Log INFO TryingToCancel) st) in *.
  destruct (job_id st) as [id|] eqn:Hid.
  2:{ unfold_monad. inversion H; subst. simpl.
      split; [assumption|]. split; [lia|]. auto. }
  rewrite bind_run in H.
  destruct (request_cancellation id st0) as [c1 st1] eqn:Hrc.
  apply request_cancellation_effect in Hrc as (Htr1 & Hj1 & Hs1).
  simpl in Htr1, Hj1, Hs1.
  assert (Hend : forall st2, paced st1 st2 ->
    job_id st2 = Some id /\
    (polls (trace st2) + sleeps (trace st)
     <= sleeps (trace st2) + polls (trace st))%nat /\
    (updates (trace st2) = updates (trace st) \/
     exists id', Some id = Some id' /\
       updates (trace st2) =
         (id', JobStatus_str PENDING, JobStatus_str CANCELLING)
           :: updates (trace st)) /\
    (silent (ticks st) ->
     store st2 = store st \/
     exists id' d, Some id = Some id' /\ store st !! id' = Some d /\
       status d = JobStatus_str PENDING /\
       store st2
         = <[id' := with_status (JobStatus_str CANCELLING) d]> (store st))).
  { intros st2 (Hu & Hp & Hr & Hj). split; [congruence|].
    rewrite Htr1 in Hu, Hp. simpl in Hu, Hp. split; [lia|].
    split; [right; exists id; split; [reflexivity | exact Hu]|].
    intros Hsil. destruct (Hs1 Hsil) as (Hsil1 & Hst).
    destruct (read_only_silent _ _ Hr Hsil1) as (_ & ->).
    destruct Hst as [-> | (d & Hd & Hpd & ->)]; eauto 10. }
  destruct c1 as [[d|]| | |].
  - apply cancel_wait_loop_paced in H. apply Hend, H.
  - unfold log in H. inversion H; subst.
    destruct (Hend st1 (paced_refl _)) as (Hj & Hp & Hu & Hs).
    simpl. auto.
  - inversion H; subst. apply Hend, paced_refl.
  - inversion H; subst. apply Hend, paced_refl.
  - inversion H; subst. apply Hend, paced_refl.
Qed.

Lemma insert_one_effect id entry st c st' :
  insert_one id entry st = (c, st') ->
  silent (ticks st) ->
  silent (ticks st') /\
  (store st' = store st \/ store st' = <[id := entry]> (store st)) /\
  (forall a, c = Normal a -> store st' = <[id := entry]> (store st)).
Proof.
  unfold insert_one, blocking. simpl. intros H Hsil.
  destruct (ticks st) as [|t rest] eqn:Ht.
  { inversion H; subst. simpl. rewrite Ht.
    split; [assumption|]. split; [auto | discriminate]. }
  inversion Hsil as [|? ? Hw Hrest]; subst. rewrite Hw in H.
  unfold insert_one_op in H.
  destruct (interrupt t); try destruct (store st !! id);
    inversion H; subst; simpl; (split; [exact Hrest|]);
    (split; [auto | first [discriminate | auto]]).
Qed.

Lemma submit_and_monitor_effect fuel env entry st c st' :
  job_id st = None ->
  submit_and_monitor fuel env entry st = (c, st') ->
  updates (trace st') = updates (trace st) /\
  (polls (trace st') + sleeps (trace st)
   <= sleeps (trace st') + polls (trace st))%nat /\
  (job_id st' = None \/ job_id st' = Some (fresh_id env)) /\
  (silent (ticks st) ->
   silent (ticks st') /\
   (store st' = store st \/ store st' = <[fresh_id env := entry]> (store st)) /\
   (job_id st' = Some (fresh_id env) ->
    store st' = <[fresh_id env := entry]> (store st))).
Proof.
  intros Hnone H. unfold submit_and_monitor in H. rewrite bind_run in H.
  destruct (insert_one (fresh_id env) entry st) as [c1 st1] eqn:Hins.
  pose proof (insert_one_effect _ _ _ _ _ Hins) as Hstore.
  apply insert_one_post in Hins as (Htr1 & Hj1 & _ & Hc1).
  assert (Hstop :
    updates (trace st1) = updates (trace st) /\
    (polls (trace st1) + sleeps (trace st)
     <= sleeps (trace st1) + polls (trace st))%nat /\
    (job_id st1 = None \/ job_id st1 = Some (fresh_id env)) /\
    (silent (ticks st) ->
     silent (ticks st1) /\
     (store st1 = store st \/
      store st1 = <[fresh_id env := entry]> (store st)) /\
     (job_id st1 = Some (fresh_id env) ->
      store st1 = <[fresh_id env := entry]> (store st)))).
  { rewrite Htr1. simpl.
    split; [reflexivity|]. split; [lia|]. split; [left; congruence|].
    intros Hsil. destruct (Hstore Hsil) as (Hsil1 & Hst & _).
    split; [assumption|]. split; [assumption|]. congruence. }
  destruct c1 as [id| | |]; try (inversion H; subst; exact Hstop).
  clear Hstop. destruct Hc1 as (-> & _).
  unfold_monad. simpl in H.
  apply monitor_loop_paced in H as (Hu & Hp & Hr & Hj).
  simpl in Hu, Hp, Hj. rewrite Htr1 in Hu, Hp. simpl in Hu, Hp.
  split; [exact Hu|]. split; [lia|]. split; [right; exact Hj|].
  intros Hsil. destruct (Hstore Hsil) as (Hsil1 & _ & Hst).
  destruct (read_only_silent _ _ Hr Hsil1) as (Hsil2 & Hs2). simpl in Hs2.
  rewrite Hs2, (Hst _ eq_refl). auto.
Qed.

Lemma run_job_effect fuel env entry st c st' :
  run_job fuel env entry st = (c, st') ->
  (polls (trace st') + sleeps (trace st)
   <= sleeps (trace st') + polls (trace st))%nat /\
  (updates (trace st') = updates (trace st) \/
   updates (trace st') =
     (fresh_id env, JobStatus_str PENDING, JobStatus_str CANCELLING)
       :: updates (trace st)) /\
  (silent (ticks st) ->
   store st' = store st \/
   store st' = <[fresh_id env := entry]> (store st) \/
   store st' =
     <[fresh_id env := with_status (JobStatus_str CANCELLING) entry]>
       (store st)).
Proof.
  intros H. unfold run_job in H.
  rewrite bind_run in H. unfold set_job_id at 1 in H.
  rewrite bind_run in H. unfold try_except in H.
  match type of H with
  | context [submit_and_monitor fuel env entry ?s] => set (st0 := s) in *
  end.
  destruct (submit_and_monitor fuel env entry st0) as [c1 st1] eqn:Hsm.
  apply submit_and_monitor_effect in Hsm as (Hu1 & Hp1 & Hj1 & Hs1);
    [|reflexivity].
  simpl in Hu1, Hp1, Hs1.
  assert (Hstop :
    (polls (trace st1) + sleeps (trace st)
     <= sleeps (trace st1) + polls (trace st))%nat /\
    (updates (trace st1) = updates (trace st) \/
     updates (trace st1) =
       (fresh_id env, JobStatus_str PENDING, JobStatus_str CANCELLING)
         :: updates (trace st)) /\
    (silent (ticks st) ->
     store st1 = store st \/
     store st1 = <[fresh_id env := entry]> (store st) \/
     store st1 =
       <[fresh_id env := with_status (JobStatus_str CANCELLING) entry]>
         (store st))).
  { split; [exact Hp1|]. split; [left; exact Hu1|].
    intros Hsil. destruct (Hs1 Hsil) as (_ & [-> | ->] & _); auto. }
  destruct c1 as [[]|code|e|];
    try (unfold_monad; inversion H; subst; exact Hstop).
  destruct (is_KeyboardInterrupt e);
    [|inversion H; subst; exact Hstop].
  clear Hstop.
  destruct (on_keyboard_interrupt fuel st1) as [c2 st2] eqn:Hh.
  apply on_keyboard_interrupt_effect in Hh as (_ & Hp2 & Hu2 & Hs2).
  assert (st' = st2) as ->
    by (destruct c2; unfold_monad; inversion H; reflexivity).
  split; [lia|]. split.
  - destruct Hu2 as [Hu2 | (id & Hid & Hu2)]; [left; congruence|].
    right. rewrite Hu2, Hu1. destruct Hj1 as [Hj1 | Hj1]; congruence.
  - intros Hsil. destruct (Hs1 Hsil) as (Hsil1 & Hst1 & Hown).
    destruct (Hs2 Hsil1) as [-> | (id & d & Hid & Hd & Hpd & ->)].
    + destruct Hst1 as [-> | ->]; auto.
    + destruct Hj1 as [Hj1 | Hj1]; [congruence|].
      assert (id = fresh_id env) as -> by congruence.
      rewrite (Hown Hj1) in Hd |- *.
      rewrite lookup_insert_eq in Hd. inversion Hd; subst d.
      rewrite insert_insert_eq. auto.
Qed.

Lemma main_effect args env s script :
  (polls (trace (main args env (initial s script)).2)
   <= sleeps (trace (main args env (initial s script)).2))%nat /\
  (updates (trace (main args env (initial s script)).2) = [] \/
   updates (trace (main args env (initial s script)).2) =
     [(fresh_id env, JobStatus_str PENDING, JobStatus_str CANCELLING)]) /\
  (silent script ->
   store (main args env (initial s script)).2 = s \/
   exists entry,
     inserts (trace (main args env (initial s script)).2) = [entry] /\
     (store (main args env (initial s script)).2
        = <[fresh_id env := entry]> s \/
      store (main args env (initial s script)).2
        = <[fresh_id env := with_status (JobStatus_str CANCELLING) entry]> s)).
Proof.
  unfold main.
  destruct (main_fuel _ args env (initial s script)) as [c st'] eqn:H.
  simpl. unfold main_fuel in H. rewrite bind_run in H.
  destruct (validate_args args (initial s script)) as [c1 st1] eqn:Hv.
  apply validate_args_post in Hv as ([(-> & ->) | (-> & msg & ->)] & _).
  2:{ inversion H; subst. simpl. split; [lia|]. auto. }
  rewrite bind_run in H. unfold load_config in H.
  destruct (config_uri env) as [uri|].
  2:{ unfold_monad. inversion H; subst. simpl. split; [lia|]. auto. }
  unfold mret at 1, M_ret at 1 in H. rewrite bind_run in H.
  destruct (make_output_config_run args (initial s script)) as (oc & Hoc & _).
  rewrite Hoc in H.
  set (entry := make_entry args env (collect_input_paths args env) oc) in *.
  assert (Hb : benign (trace (initial s script))) by exact I.
  pose proof (run_job_post _ _ _ _ _ _ Hb H) as (Hi & _).
  apply run_job_effect in H as (Hp & Hu & Hs). simpl in *.
  split; [lia|]. split; [exact Hu|].
  intros Hsil. destruct (Hs Hsil) as [-> | [-> | ->]]; eauto 10.
Qed.

(** X20. In every run [main] requests at most one update of the
    collection, and that one is the conditional change of its own job
    from pending to cancelling. *)
Theorem at_most_one_conditional_update
    (args : Args.t) (env : Env) (s : gmap N JobDoc) (script : list Tick) :
  updates (trace (main args env (initial s script)).2) = [] \/
  updates (trace (main args env (initial s script)).2) =
    [(fresh_id env, JobStatus_str PENDING, JobStatus_str CANCELLING)].
Proof. exact (proj1 (proj2 (main_effect args env s script))). Qed.

(** X21. In every run, finished or still waiting, [main] has polled the
    store no more often than it has slept for a second. *)
Theorem never_polls_more_often_than_it_sleeps
    (args : Args.t) (env : Env) (s : gmap N JobDoc) (script : list Tick) :
  (polls (trace (main args env (initial s script)).2)
   <= sleeps (trace (main args env (initial s script)).2))%nat.
Proof. exact (proj1 (main_effect args env s script)). Qed.

(** X22. When no other process touches the collection, all that a run of
    [main] leaves behind in it is its own job document, as submitted or
    with the status changed to cancelling; every other document, and
    every other field of its own, is as before. *)
Theorem footprint_is_the_job_document
    (args : Args.t) (env : Env) (s : gmap N JobDoc) (script : list Tick) :
  silent script ->
  store (main args env (initial s script)).2 = s \/
  exists entry,
    inserts (trace (main args env (initial s script)).2) = [entry] /\
    (store (main args env (initial s script)).2
       = <[fresh_id env := entry]> s \/
     store (main args env (initial s script)).2
       = <[fresh_id env := with_status (JobStatus_str CANCELLING) entry]> s).
Proof. exact (proj2 (proj2 (main_effect args env s script))). Qed.

(** ** The further properties at concrete inputs *)

Lemma polling_stops_witness :
  exists st',
    monitor_loop 1 1 0 Cases.vanishing = (Returned (-1), st') /\
    trace st' = [Log ERROR JobDisappeared; FindOne 1 MonitorFields; Sleep].
Proof.
  destruct (polling_stops_when_job_disappears 0 1 0 Cases.vanishing
              Cases.deleting Scenario.quiet [] eq_refl eq_refl eq_refl
              eq_refl) as (st' & Hrun & Htr & _).
  exists st'. split; [exact Hrun | exact Htr].
Defined.

Lemma failed_ends_polling_witness :
  exists st',
    monitor_loop 1 1 0 (Scenario.polling (with_status "failed" Scenario.entry))
      = (Normal tt, st') /\
    error_lines (trace st') = [CompressionFailed].
Proof.
  destruct (failed_or_cancelled_ends_polling 0 1 0
              (Scenario.polling (with_status "failed" Scenario.entry))
              Scenario.quiet Scenario.quiet []
              (with_status "failed" Scenario.entry) FAILED
              ltac:(lia) eq_refl eq_refl eq_refl eq_refl eq_refl
              (or_introl eq_refl))
    as (st' & Hrun & He & _).
  exists st'. split; [exact Hrun | exact He].
Defined.

Lemma running_keeps_polling_witness :
  monitor_loop 1 1 0 (Scenario.polling (with_status "running" Scenario.entry))
  = monitor_loop 0 1 0
      (progressed 0 (with_status "running" Scenario.entry)
         (polled 1 Scenario.quiet Scenario.quiet []
            (Scenario.polling (with_status "running" Scenario.entry)))).
Proof.
  apply (non_terminal_status_keeps_polling 0 1 0
           (Scenario.polling (with_status "running" Scenario.entry))
           Scenario.quiet Scenario.quiet []
           (with_status "running" Scenario.entry) RUNNING
           ltac:(lia) eq_refl eq_refl eq_refl eq_refl eq_refl
           (or_intror (or_introl eq_refl))).
Defined.

Lemma done_without_timestamps_witness :
  handle_status 1 0 (with_status "done" Scenario.entry)
    (Scenario.polling Scenario.entry)
  = (Raised (KeyError "end_timestamp"), Scenario.polling Scenario.entry).
Proof.
  exact (done_without_usable_timestamps_escapes 1 0
           (with_status "done" Scenario.entry)
           (Scenario.polling Scenario.entry) eq_refl).
Defined.

Lemma done_with_errors_witness :
  exists st',
    handle_status 1 1000000 Cases.lossy (Scenario.polling Cases.lossy)
      = (Normal Break, st') /\
    error_lines (trace st') = [ErrorsOccurred].
Proof.
  destruct (done_reports_then_warns_of_errors 1 1000000 Cases.lossy
              (Scenario.polling Cases.lossy)
              (Datetime 3000000) (Datetime 1000000)
              (Timedelta (3000000 - 1000000)) eq_refl eq_refl eq_refl)
    as (st' & Hrun & Htr & _).
  - right. exists 3000000, 1000000. repeat split.
  - simpl. lia.
  - exists st'. split; [exact Hrun|]. rewrite Htr. reflexivity.
Defined.

Lemma cancel_wait_ignores_failed_witness :
  cancel_wait_loop 1 1 (Scenario.polling (with_status "failed" Scenario.entry))
  = cancel_wait_loop 0 1
      (polled_status 1 Scenario.quiet Scenario.quiet []
         (Scenario.polling (with_status "failed" Scenario.entry))).
Proof.
  apply (proj2 (cancel_wait_ends_only_on_cancelled_or_done 0 1
                  (Scenario.polling (with_status "failed" Scenario.entry))
                  Scenario.quiet Scenario.quiet []
                  (with_status "failed" Scenario.entry) FAILED
                  eq_refl eq_refl eq_refl eq_refl eq_refl));
    intros H; discriminate H.
Defined.

Lemma cancel_wait_stops_witness :
  cancel_wait_loop 1 1 Cases.vanishing
  = (Returned (-1),
     emit (Log ERROR JobDisappeared)
       (polled_status 1 Cases.deleting Scenario.quiet [] Cases.vanishing)).
Proof.
  exact (cancel_wait_stops_when_job_disappears 0 1 Cases.vanishing
           Cases.deleting Scenario.quiet [] eq_refl eq_refl eq_refl eq_refl).
Defined.


Lemma second_interrupt_witness :
  exists st2,
    run_job 4 Scenario.env Scenario.entry (initial ∅ Cases.interrupted_twice)
    = (Raised KeyboardInterrupt, st2).
Proof.
  destruct (second_interrupt_escapes 4 Scenario.env Scenario.entry
              (initial ∅ Cases.interrupted_twice)
              (submit_and_monitor 4 Scenario.env Scenario.entry
                 (set_job_id None (initial ∅ Cases.interrupted_twice)).2).2
              1 Scenario.ctrl_c [])
    as (st2 & Hrun & _).
  - vm_compute. reflexivity.
  - vm_compute. reflexivity.
  - vm_compute. reflexivity.
  - intros H. discriminate H.
  - exists st2. exact Hrun.
Defined.

Lemma footprint_witness :
  store (main Scenario.args Scenario.env
           (initial ∅ Cases.interrupted_while_pending)).2 = ∅ \/
  exists entry,
    inserts (trace (main Scenario.args Scenario.env
                      (initial ∅ Cases.interrupted_while_pending)).2)
      = [entry] /\
    (store (main Scenario.args Scenario.env
              (initial ∅ Cases.interrupted_while_pending)).2
       = <[1%N := entry]> ∅ \/
     store (main Scenario.args Scenario.env
              (initial ∅ Cases.interrupted_while_pending)).2
       = <[1%N := with_status "cancelling" entry]> ∅).
Proof.
  apply (footprint_is_the_job_document Scenario.args Scenario.env ∅
           Cases.interrupted_while_pending).
  repeat constructor.
Defined.

(** * Whole runs, by what the environment does *)

(** ** From [main] to the polling loop *)

Lemma builds_unique args env e1 e2 :
  builds args env e1 -> builds args env e2 -> e1 = e2.
Proof.
  intros (oc1 & H1 & ->) (oc2 & H2 & ->). f_equal.
  apply map_eq. intros attr. rewrite H1, H2. reflexivity.
Qed.

Lemma main_runs_job args env st :
  valid_args args -> config_uri env <> None ->
  exists entry,
    builds args env entry /\
    main args env st = run_job (S (length (ticks st))) env entry st.
Proof.
  intros Hv Hcfg. unfold main, main_fuel.
  rewrite bind_run, validate_args_valid by assumption.
  rewrite bind_run. unfold load_config.
  destruct (config_uri env) as [uri|]; [|contradiction].
  unfold mret at 1, M_ret at 1. rewrite bind_run.
  destruct (make_output_config_run args st) as (oc & -> & Hoc).
  eexists. split; [exists oc; split; [exact Hoc | reflexivity] | reflexivity].
Qed.

Lemma run_job_submitted fuel env entry s t0 rest :
  interrupt t0 = Quiet ->
  worker t0 s !! fresh_id env = None ->
  run_job fuel env entry (initial s (t0 :: rest))
  = rest_of_main fuel fuel (fresh_id env) 0
      (submitted env entry (worker t0 s) rest).
Proof.
  intros Hq Hfree. unfold rest_of_main, run_job. rewrite bind_run. simpl.
  rewrite !bind_run. unfold try_except, submit_and_monitor.
  rewrite bind_run. unfold insert_one, blocking. simpl. rewrite Hq.
  unfold insert_one_op. rewrite Hfree. reflexivity.
Qed.


Lemma rest_of_main_run fuel loop_fuel id last st :
  rest_of_main fuel loop_fuel id last st =
  match monitor_loop loop_fuel id last st with
  | (Normal _, st') => (Returned 0, st')
  | (Returned c, st') => (Returned c, st')
  | (Raised e, st') =>
      if is_KeyboardInterrupt e
      then (on_keyboard_interrupt fuel ;; return_ 0) st'
      else (Raised e, st')
  | (Blocked, st') => (Blocked, st')
  end.
Proof.
  unfold rest_of_main. rewrite bind_run. unfold try_except.
  destruct (monitor_loop loop_fuel id last st) as [[a|c|e|] st'];
    try reflexivity.
  destruct (is_KeyboardInterrupt e); reflexivity.
Qed.

Lemma submitted_benign env entry s rest :
  benign (trace (submitted env entry s rest)).
Proof. unfold benign. simpl. auto. Qed.

Lemma loop_head_frame id st0 last st :
  loop_head id st0 last st -> benign (trace st0) ->
  0 <= last /\ benign (trace st) /\
  (length (ticks st) <= length (ticks st0))%nat /\
  job_id st = job_id st0.
Proof.
  induction 1 as [|last st last' st' Hh IH Hit]; intros Hb.
  - repeat split; auto; lia.
  - destruct (IH Hb) as (Hl & Hbs & Hlen & Hid).
    destruct (monitor_iteration_post _ _ _ _ _ Hl Hbs Hit)
      as ((_ & _ & Hlen' & Hid') & Hl' & Hb' & Hlt).
    repeat split; try assumption; [lia | congruence].
Qed.

(** The fuel of [main] is enough at every loop head. *)
Lemma monitor_loop_from_head id st0 last st :
  loop_head id st0 last st -> benign (trace st0) ->
  forall fuel, (length (ticks st0) < fuel)%nat ->
  exists fuel',
    (length (ticks st) < fuel')%nat /\
    monitor_loop fuel id 0 st0 = monitor_loop fuel' id last st.
Proof.
  induction 1 as [|last st last' st' Hh IH Hit]; intros Hb fuel Hfuel.
  - exists fuel. auto.
  - destruct (IH Hb fuel Hfuel) as (f1 & Hf1 & Heq).
    destruct (loop_head_frame _ _ _ _ Hh Hb) as (Hl & Hbs & _).
    destruct (monitor_iteration_post _ _ _ _ _ Hl Hbs Hit)
      as (_ & _ & _ & Hlt).
    destruct f1 as [|f]; [lia|].
    exists f. split; [lia|].
    rewrite Heq. cbn [monitor_loop]. rewrite bind_run, Hit. reflexivity.
Qed.

(** ** The last pass through the polling loop *)

Lemma monitor_loop_missing f id last st t1 t2 rest :
  ticks st = t1 :: t2 :: rest ->
  interrupt t1 = Quiet -> interrupt t2 = Quiet ->
  worker t2 (worker t1 (store st)) !! id = None ->
  monitor_loop (S f) id last st
  = (Returned (-1), emit (Log ERROR JobDisappeared) (polled id t1 t2 rest st)).
Proof.
  intros Ht H1 H2 Hdoc. cbn [monitor_loop].
  rewrite bind_run, (monitor_iteration_missing _ _ _ _ _ _ Ht H1 H2 Hdoc).
  reflexivity.
Qed.

Lemma monitor_loop_found f id last st t1 t2 rest doc :
  0 <= last ->
  ticks st = t1 :: t2 :: rest ->
  interrupt t1 = Quiet -> interrupt t2 = Quiet ->
  worker t2 (worker t1 (store st)) !! id = Some doc ->
  monitor_loop (S f) id last st =
  match handle_status id (Z.max last (logs_uncompressed_size doc)) doc
          (progressed last doc (polled id t1 t2 rest st)) with
  | (Normal Break, st') => (Normal tt, st')
  | (Normal Continue, st') =>
      monitor_loop f id (Z.max last (logs_uncompressed_size doc)) st'
  | (Returned c, st') => (Returned c, st')
  | (Raised e, st') => (Raised e, st')
  | (Blocked, st') => (Blocked, st')
  end.
Proof.
  intros Hl Ht H1 H2 Hdoc. cbn [monitor_loop].
  rewrite bind_run, (monitor_iteration_found _ _ _ _ _ _ _ Ht H1 H2 Hdoc).
  rewrite bind_run, report_progress_progressed by assumption.
  rewrite bind_run.
  destruct (handle_status _ _ _ _) as [[[]|c|e|] st']; reflexivity.
Qed.

Lemma monitor_loop_interrupted f id last st st1 :
  monitor_iteration id last st = (Raised KeyboardInterrupt, st1) ->
  monitor_loop (S f) id last st = (Raised KeyboardInterrupt, st1).
Proof.
  intros Hit. cbn [monitor_loop]. rewrite bind_run, Hit. reflexivity.
Qed.

Lemma handle_status_unknown id last doc st :
  from_str (status doc) = None ->
  handle_status id last doc st
  = (Returned (-1), emit (Log ERROR (UnknownStatus (status doc) id)) st).
Proof.
  intros Hjs. unfold handle_status, JobStatus_from_str. rewrite Hjs.
  reflexivity.
Qed.

Lemma handle_status_failed id last doc st :
  from_str (status doc) = Some FAILED ->
  handle_status id last doc st
  = (Normal Break, emit (Log ERROR CompressionFailed) st).
Proof.
  intros Hjs. unfold handle_status, JobStatus_from_str. rewrite Hjs.
  reflexivity.
Qed.

Lemma handle_status_cancelled id last doc st :
  from_str (status doc) = Some CANCELLED ->
  handle_status id last doc st
  = (Normal Break, emit (Log ERROR CompressionCancelled) st).
Proof.
  intros Hjs. unfold handle_status, JobStatus_from_str. rewrite Hjs.
  reflexivity.
Qed.

Lemma handle_done_usable last doc st :
  usable_runtime doc ->
  exists runtime speed,
    handle_done last doc st
    = (Normal Break,
       if errors doc
       then emit (Log ERROR ErrorsOccurred)
              (emit (Log INFO (Finished runtime speed)) st)
       else emit (Log INFO (Finished runtime speed)) st).
Proof.
  unfold usable_runtime, handle_done. intros Hu.
  destruct (end_timestamp doc) as [[e|e]|]; try contradiction;
    destruct (begin_timestamp doc) as [[b|b]|]; try contradiction.
  - assert (Hz : Qeq_bool (runtime_seconds (IntDelta (e - b))) 0 = false).
    { destruct (Qeq_bool _ 0) eqn:Hz; [|reflexivity].
      apply runtime_zero in Hz. simpl in Hz. lia. }
    unfold getitem, sub_timestamps, py_div.
    unfold mbind, M_bind, mret, M_ret, log. rewrite Hz.
    destruct (errors doc); eexists _, _; reflexivity.
  - assert (Hz : Qeq_bool (runtime_seconds (Timedelta (e - b))) 0 = false).
    { destruct (Qeq_bool _ 0) eqn:Hz; [|reflexivity].
      apply runtime_zero in Hz. simpl in Hz. lia. }
    unfold getitem, sub_timestamps, py_div.
    unfold mbind, M_bind, mret, M_ret, log. rewrite Hz.
    destruct (errors doc); eexists _, _; reflexivity.
Qed.

(** ** The handler and the wait for the cancellation *)

Lemma handler_waits fuel id st1 t rest d :
  job_id st1 = Some id ->
  ticks st1 = t :: rest ->
  interrupt t = Quiet ->
  worker t (store st1) !! id = Some d ->
  status d = JobStatus_str PENDING ->
  (on_keyboard_interrupt fuel ;; @return_ unit 0) st1
  = (cancel_wait_loop fuel id ;; @return_ unit 0) (cancelling id t rest d st1).
Proof.
  intros Hid Ht Hq Hd Hp. rewrite bind_run.
  unfold on_keyboard_interrupt. rewrite bind_run. unfold log at 1.
  rewrite bind_run. unfold get_job_id. simpl. rewrite Hid.
  rewrite bind_run. unfold request_cancellation, find_one_and_update.
  rewrite (blocking_quiet _ _ (emit _ st1) t rest Ht Hq). simpl.
  unfold find_one_and_update_op. rewrite Hd.
  simpl in Hp. rewrite Hp. simpl. rewrite bind_run. reflexivity.
Qed.

Lemma cancel_wait_from_head id st0 st :
  wait_head id st0 st ->
  forall fuel, (length (ticks st0) < fuel)%nat ->
  exists fuel',
    (length (ticks st) < fuel')%nat /\
    cancel_wait_loop fuel id st0 = cancel_wait_loop fuel' id st.
Proof.
  induction 1 as [|st t1 t2 rest doc js Hh IH Ht H1 H2 Hdoc Hjs Hc Hd];
    intros fuel Hfuel.
  - exists fuel. auto.
  - destruct (IH fuel Hfuel) as (f1 & Hf1 & Heq).
    destruct f1 as [|f]; [lia|].
    exists f. split.
    + rewrite Ht in Hf1. simpl in Hf1 |- *. lia.
    + rewrite Heq, (cancel_wait_found _ _ _ _ _ _ _ Ht H1 H2 Hdoc), bind_run.
      unfold JobStatus_from_str. rewrite Hjs. unfold mret, M_ret.
      destruct js; try reflexivity; contradiction.
Qed.

Lemma cancel_wait_missing f id st t1 t2 rest :
  ticks st = t1 :: t2 :: rest ->
  interrupt t1 = Quiet -> interrupt t2 = Quiet ->
  worker t2 (worker t1 (store st)) !! id = None ->
  cancel_wait_loop (S f) id st
  = (Returned (-1),
     emit (Log ERROR JobDisappeared) (polled_status id t1 t2 rest st)).
Proof.
  intros Ht H1 H2 Hdoc. cbn [cancel_wait_loop].
  rewrite bind_run. unfold sleep.
  rewrite (blocking_quiet _ _ _ _ _ Ht H1). simpl.
  rewrite bind_run. unfold find_one.
  rewrite (blocking_quiet _ _ (after_call _ _ _ _) t2 rest eq_refl H2).
  simpl. rewrite Hdoc. reflexivity.
Qed.

Lemma cancel_wait_acknowledged f id st t1 t2 rest doc js :
  ticks st = t1 :: t2 :: rest ->
  interrupt t1 = Quiet -> interrupt t2 = Quiet ->
  worker t2 (worker t1 (store st)) !! id = Some doc ->
  from_str (status doc) = Some js ->
  js = CANCELLED \/ js = DONE ->
  cancel_wait_loop (S f) id st
  = (Normal tt, emit (Log INFO CancelledJobs) (polled_status id t1 t2 rest st)).
Proof.
  intros Ht H1 H2 Hdoc Hjs Hend.
  rewrite (cancel_wait_found _ _ _ _ _ _ _ Ht H1 H2 Hdoc), bind_run.
  unfold JobStatus_from_str. rewrite Hjs. unfold mret, M_ret.
  destruct Hend as [-> | ->]; reflexivity.
Qed.

Lemma cancel_wait_undecodable f id st t1 t2 rest doc :
  ticks st = t1 :: t2 :: rest ->
  interrupt t1 = Quiet -> interrupt t2 = Quiet ->
  worker t2 (worker t1 (store st)) !! id = Some doc ->
  from_str (status doc) = None ->
  cancel_wait_loop (S f) id st
  = (Raised (KeyError (status doc)), polled_status id t1 t2 rest st).
Proof.
  intros Ht H1 H2 Hdoc Hjs.
  rewrite (cancel_wait_found _ _ _ _ _ _ _ Ht H1 H2 Hdoc), bind_run.
  unfold JobStatus_from_str. rewrite Hjs. reflexivity.
Qed.

(** A run that [polls_at] a state is, from there on, what is left of
    [main] at the top of the polling loop. *)
Lemma main_at_loop_head args env s script last st :
  polls_at args env s script last st ->
  0 <= last /\
  job_id st = Some (fresh_id env) /\
  (length (ticks st) < S (length script))%nat /\
  exists loop_fuel,
    (length (ticks st) < loop_fuel)%nat /\
    main args env (initial s script)
    = rest_of_main (S (length script)) loop_fuel (fresh_id env) last st.
Proof.
  intros (Hv & Hcfg & t0 & rest0 & entry & -> & Hq & Hfree & Hb & Hhead).
  destruct (main_runs_job args env (initial s (t0 :: rest0)) Hv Hcfg)
    as (entry' & Hb' & Hmain).
  rewrite (builds_unique _ _ _ _ Hb' Hb) in Hmain.
  change (ticks (initial s (t0 :: rest0))) with (t0 :: rest0) in Hmain.
  rewrite run_job_submitted in Hmain by assumption.
  pose proof (submitted_benign env entry (worker t0 s) rest0) as Hben.
  destruct (loop_head_frame _ _ _ _ Hhead Hben) as (Hl & _ & Hlen & Hid).
  simpl in Hlen, Hid.
  split; [exact Hl|]. split; [exact Hid|]. split; [simpl; lia|].
  destruct (monitor_loop_from_head _ _ _ _ Hhead Hben
              (S (length (t0 :: rest0)))) as (f' & Hf' & Heq).
  { simpl. lia. }
  exists f'. split; [exact Hf'|].
  rewrite Hmain, !rest_of_main_run, Heq. reflexivity.
Qed.

(** A run that [waits_at] a state is, from there on, the wait for the
    cancellation followed by [return 0]. *)
Lemma main_at_wait_head args env s script st :
  waits_at args env s script st ->
  exists fuel,
    (length (ticks st) < fuel)%nat /\
    main args env (initial s script)
    = (cancel_wait_loop fuel (fresh_id env) ;; @return_ unit 0) st.
Proof.
  intros (last & stp & st1 & t & rest & d & Hp & Hit & Ht & Hq & Hd & Hpend
          & Hw).
  destruct (main_at_loop_head _ _ _ _ _ _ Hp)
    as (Hl & Hid & Hlen & f' & Hf' & Hmain).
  apply monitor_iteration_paced in Hit as Hpaced.
  destruct Hpaced as (_ & _ & (consumed & Hc & _) & Hj).
  assert (Hlen1 : (length (ticks st1) <= length (ticks stp))%nat).
  { rewrite Hc, length_app. lia. }
  destruct (cancel_wait_from_head _ _ _ Hw (S (length script)))
    as (fw & Hfw & Heq).
  { unfold cancelling, after_call. simpl. rewrite Ht in Hlen1.
    simpl in Hlen1. lia. }
  exists fw. split; [exact Hfw|].
  destruct f' as [|f]; [lia|].
  rewrite Hmain, rest_of_main_run, (monitor_loop_interrupted _ _ _ _ _ Hit).
  cbn [is_KeyboardInterrupt].
  rewrite (handler_waits _ _ _ _ _ _ (eq_trans Hj Hid) Ht Hq Hd Hpend).
  rewrite !bind_run, Heq. reflexivity.
Qed.



(** ** The created document *)


Lemma scenario_supplied attr : supplied Scenario.args attr = None.
Proof.
  unfold supplied.
  repeat match goal with
         | |- context [String.eqb attr ?k] => destruct (String.eqb attr k)
         end; reflexivity.
Qed.




(** ** Exit status *)

(** C6. The exit status of the process ([sys.exit(main(sys.argv))])
    follows what the run meets.  Arguments that fail the checks of lines
    78-96 end it with status 2, a rejected configuration with status 255
    (the return value -1).  At every pass through the polling loop whose
    poll comes back, the run ends with status 255 when the job document
    is gone or its status names no known state, and with status 0 when
    the status is FAILED, CANCELLED, or DONE with a usable runtime, the
    errors flag set or not.  At every pass through the wait for the
    cancellation, the run ends with status 255 when the job document is
    gone, with status 1 (the uncaught [KeyError]) when its status names
    no known state, and with status 0 when the status is CANCELLED or
    DONE.  And whatever the run, when its last log line reports a
    terminal outcome the status is 0, when it reports a rejected
    configuration, a job that disappeared or an unknown status the
    status is 255. *)
Theorem exit_status_by_cause
    (args : Args.t) (env : Env) (s : gmap N JobDoc) (script : list Tick) :
  let r := main args env (initial s script) in
  let id := fresh_id env in
  (~ valid_args args ->
   r.1 = Raised (SystemExit 2) /\ exit_status r.1 = Some 2) /\
  (valid_args args -> config_uri env = None ->
   r.1 = Returned (-1) /\ exit_status r.1 = Some 255 /\
   last_log (trace r.2) = Some ValidationFailed) /\
  (forall last st t1 t2 rest,
     polls_at args env s script last st ->
     ticks st = t1 :: t2 :: rest ->
     interrupt t1 = Quiet -> interrupt t2 = Quiet ->
     match worker t2 (worker t1 (store st)) !! id with
     | None =>
         exit_status r.1 = Some 255 /\
         last_log (trace r.2) = Some JobDisappeared
     | Some doc =>
         match from_str (status doc) with
         | None =>
             exit_status r.1 = Some 255 /\
             last_log (trace r.2) = Some (UnknownStatus (status doc) id)
         | Some FAILED =>
             exit_status r.1 = Some 0 /\
             last_log (trace r.2) = Some CompressionFailed
         | Some CANCELLED =>
             exit_status r.1 = Some 0 /\
             last_log (trace r.2) = Some CompressionCancelled
         | Some DONE =>
             usable_runtime doc ->
             exit_status r.1 = Some 0 /\
             exists runtime speed,
               last_log (trace r.2)
               = Some (if errors doc then ErrorsOccurred
                       else Finished runtime speed)
         | Some _ => True
         end
     end) /\
  (forall st t1 t2 rest,
     waits_at args env s script st ->
     ticks st = t1 :: t2 :: rest ->
     interrupt t1 = Quiet -> interrupt t2 = Quiet ->
     match worker t2 (worker t1 (store st)) !! id with
     | None =>
         exit_status r.1 = Some 255 /\
         last_log (trace r.2) = Some JobDisappeared
     | Some doc =>
         match from_str (status doc) with
         | None =>
             r.1 = Raised (KeyError (status doc)) /\
             exit_status r.1 = Some 1
         | Some CANCELLED | Some DONE =>
             exit_status r.1 = Some 0 /\
             last_log (trace r.2) = Some CancelledJobs
         | Some _ => True
         end
     end) /\
  (forall m, last_log (trace r.2) = Some m ->
     (terminal_report m = true -> exit_status r.1 = Some 0) /\
     (fatal_report m = true -> exit_status r.1 = Some 255)).
Proof.
  cbv zeta. split; [|split; [|split; [|split]]].
  - intros Hnv. unfold main, main_fuel. rewrite bind_run.
    destruct (validate_args args (initial s script)) as [c st'] eqn:Hva.
    destruct (validate_args_post _ _ _ _ Hva)
      as ([(-> & ->) | (-> & msg & ->)] & _).
    + exfalso. apply Hnv.
      exact (validate_args_normal _ _ _ _ Hva eq_refl).
    + split; reflexivity.
  - intros Hv Hnone. unfold main, main_fuel.
    rewrite bind_run, validate_args_valid by assumption.
    rewrite bind_run. unfold load_config. rewrite Hnone.
    repeat split.
  - intros last st t1 t2 rest Hp Ht H1 H2.
    destruct (main_at_loop_head _ _ _ _ _ _ Hp)
      as (Hl & _ & _ & f' & Hf' & ->).
    destruct f' as [|f]; [rewrite Ht in Hf'; simpl in Hf'; lia|].
    rewrite rest_of_main_run.
    destruct (worker t2 (worker t1 (store st)) !! fresh_id env)
      as [doc|] eqn:Hdoc.
    + rewrite (monitor_loop_found _ _ _ _ _ _ _ _ Hl Ht H1 H2 Hdoc).
      destruct (from_str (status doc)) as [js|] eqn:Hjs.
      * destruct js; try exact I.
        -- intros Hu. rewrite handle_status_done by assumption.
           destruct (handle_done_usable
                       (Z.max last (logs_uncompressed_size doc)) doc
                       (progressed last doc (polled (fresh_id env) t1 t2 rest st))
                       Hu) as (rt & sp & ->).
           split; [reflexivity|]. exists rt, sp.
           destruct (errors doc); reflexivity.
        -- rewrite handle_status_failed by assumption. split; reflexivity.
        -- rewrite handle_status_cancelled by assumption. split; reflexivity.
      * rewrite handle_status_unknown by assumption. split; reflexivity.
    + rewrite (monitor_loop_missing _ _ _ _ _ _ _ Ht H1 H2 Hdoc).
      split; reflexivity.
  - intros st t1 t2 rest Hw Ht H1 H2.
    destruct (main_at_wait_head _ _ _ _ _ Hw) as (fw & Hfw & ->).
    destruct fw as [|f]; [rewrite Ht in Hfw; simpl in Hfw; lia|].
    rewrite bind_run.
    destruct (worker t2 (worker t1 (store st)) !! fresh_id env)
      as [doc|] eqn:Hdoc.
    + destruct (from_str (status doc)) as [js|] eqn:Hjs.
      * destruct js; try exact I;
          rewrite (cancel_wait_acknowledged _ _ _ _ _ _ _ _ Ht H1 H2 Hdoc Hjs)
            by auto;
          split; reflexivity.
      * rewrite (cancel_wait_undecodable _ _ _ _ _ _ _ Ht H1 H2 Hdoc Hjs).
        split; reflexivity.
    + rewrite (cancel_wait_missing _ _ _ _ _ _ Ht H1 H2 Hdoc).
      split; reflexivity.
  - intros m Hlast. unfold main in *.
    destruct (main_fuel _ args env (initial s script)) as [c st'] eqn:H.
    apply main_fuel_post in H as (Hm & _); [|exact I]. simpl in *.
    unfold main_post, benign in Hm. rewrite Hlast in Hm. split.
    + intros Ht. pose proof (terminal_not_fatal _ Ht) as Hnf.
      destruct c as [[]|code|e|].
      * contradiction.
      * destruct Hm as [(-> & _) | (_ & m' & Hm' & Hf)]; [reflexivity|].
        congruence.
      * destruct Hm as ((Hterm & _) & _). congruence.
      * destruct Hm as (Hterm & _). congruence.
    + intros Hf. destruct c as [[]|code|e|].
      * contradiction.
      * destruct Hm as [(_ & m' & Hm' & Hnf) | (-> & _)]; [congruence|].
        reflexivity.
      * destruct Hm as ((_ & Hnf) & _). congruence.
      * destruct Hm as (_ & Hnf). congruence.
Qed.

Lemma no_paths_invalid : ~ valid_args Cases.no_paths.
Proof. intros ((H & _) & _). exact (H eq_refl eq_refl). Qed.

Lemma scenario_builds : builds Scenario.args Scenario.env Scenario.entry.
Proof.
  exists ∅. split; [|reflexivity].
  intros attr. rewrite scenario_supplied. apply lookup_empty.
Qed.

(** After the create call of [compress.py /a /b] on an empty collection,
    the run is at the top of the polling loop. *)
Lemma scenario_polls (rest : list Tick) :
  polls_at Scenario.args Scenario.env ∅ (Scenario.quiet :: rest) 0
    (submitted Scenario.env Scenario.entry ∅ rest).
Proof.
  split; [exact scenario_args_valid|].
  split; [exact scenario_config_given|].
  exists Scenario.quiet, rest, Scenario.entry.
  split; [reflexivity|]. split; [reflexivity|]. split; [reflexivity|].
  split; [exact scenario_builds|]. apply head_first.
Qed.

(** Interrupted during the first sleep with the job still pending, the
    run is at the top of the wait for the cancellation. *)
Lemma scenario_waits (rest : list Tick) :
  waits_at Scenario.args Scenario.env ∅
    (Scenario.quiet :: Scenario.ctrl_c :: Scenario.quiet :: rest)
    (cancelling 1%N Scenario.quiet rest Scenario.entry
       (after_call Sleep
          (store (submitted Scenario.env Scenario.entry ∅ []))
          (Scenario.quiet :: rest)
          (submitted Scenario.env Scenario.entry ∅ []))).
Proof.
  exists 0, (submitted Scenario.env Scenario.entry ∅
               (Scenario.ctrl_c :: Scenario.quiet :: rest)).
  eexists _, Scenario.quiet, rest, Scenario.entry.
  split; [apply scenario_polls|].
  split; [reflexivity|].
  split; [reflexivity|]. split; [reflexivity|].
  split; [reflexivity|]. split; [reflexivity|].
  apply wait_first.
Qed.

(** The exit status of [compress.py] without paths, of [compress.py /a /b]
    with a rejected configuration, and of [compress.py /a /b] when the job
    document is deleted, shows an unknown status, fails or is done at the
    first poll, and when, after Ctrl-C on the pending job, the document
    is deleted, shows an unknown status or is acknowledged as
    cancelled. *)
Lemma exit_status_by_cause_witness :
  exit_status (main Cases.no_paths Scenario.env (initial ∅ [])).1 = Some 2 /\
  exit_status (main Scenario.args Cases.bad_config
                 (initial ∅ Scenario.completes)).1 = Some 255 /\
  exit_status (main Scenario.args Scenario.env
                 (initial ∅ Cases.job_deleted)).1 = Some 255 /\
  exit_status (main Scenario.args Scenario.env
                 (initial ∅ Scenario.monitor_then_unknown)).1 = Some 255 /\
  exit_status (main Scenario.args Scenario.env
                 (initial ∅ Cases.job_fails)).1 = Some 0 /\
  exit_status (main Scenario.args Scenario.env
                 (initial ∅ Cases.finishes_at_once)).1 = Some 0 /\
  exit_status (main Scenario.args Scenario.env
                 (initial ∅ Cases.cancel_then_deleted)).1 = Some 255 /\
  exit_status (main Scenario.args Scenario.env
                 (initial ∅ Scenario.cancel_then_unknown)).1 = Some 1 /\
  exit_status (main Scenario.args Scenario.env
                 (initial ∅ Cases.cancel_acknowledged)).1 = Some 0.
Proof.
  split.
  { exact (proj2 (proj1 (exit_status_by_cause Cases.no_paths Scenario.env ∅ [])
                   no_paths_invalid)). }
  split.
  { exact (proj1 (proj2 (proj1 (proj2 (exit_status_by_cause Scenario.args
             Cases.bad_config ∅ Scenario.completes))
             scenario_args_valid eq_refl))). }
  split.
  { exact (proj1 (proj1 (proj2 (proj2 (exit_status_by_cause Scenario.args
             Scenario.env ∅ Cases.job_deleted)))
             0 _ Cases.deleting Scenario.quiet []
             (scenario_polls _) eq_refl eq_refl eq_refl)). }
  split.
  { exact (proj1 (proj1 (proj2 (proj2 (exit_status_by_cause Scenario.args
             Scenario.env ∅ Scenario.monitor_then_unknown)))
             0 _ (Scenario.worker_does (with_status "bogus")) Scenario.quiet []
             (scenario_polls _) eq_refl eq_refl eq_refl)). }
  split.
  { exact (proj1 (proj1 (proj2 (proj2 (exit_status_by_cause Scenario.args
             Scenario.env ∅ Cases.job_fails)))
             0 _ (Scenario.worker_does (with_status "failed")) Scenario.quiet []
             (scenario_polls _) eq_refl eq_refl eq_refl)). }
  split.
  { refine (proj1 (proj1 (proj2 (proj2 (exit_status_by_cause Scenario.args
             Scenario.env ∅ Cases.finishes_at_once)))
             0 _ (Scenario.worker_does
                    (Scenario.finished (Millis 1000) (Millis 3000)))
             Scenario.quiet []
             (scenario_polls _) eq_refl eq_refl eq_refl _)).
    unfold usable_runtime. simpl. lia. }
  split.
  { exact (proj1 (proj1 (proj2 (proj2 (proj2 (exit_status_by_cause
             Scenario.args Scenario.env ∅ Cases.cancel_then_deleted))))
             _ Cases.deleting Scenario.quiet []
             (scenario_waits _) eq_refl eq_refl eq_refl)). }
  split.
  { exact (proj2 (proj1 (proj2 (proj2 (proj2 (exit_status_by_cause
             Scenario.args Scenario.env ∅ Scenario.cancel_then_unknown))))
             _ (Scenario.worker_does (with_status "bogus")) Scenario.quiet []
             (scenario_waits _) eq_refl eq_refl eq_refl)). }
  exact (proj1 (proj1 (proj2 (proj2 (proj2 (exit_status_by_cause
           Scenario.args Scenario.env ∅ Cases.cancel_acknowledged))))
           _ (Scenario.worker_does (with_status "cancelled")) Scenario.quiet []
           (scenario_waits _) eq_refl eq_refl eq_refl)).
Defined.
